(** * ngx-uploader: the upload service ([services/ngx-uploader.ts])

    A shallow embedding of [humanizeBytes] and of [NgUploaderService]
    (the registry [files]/[fileList], the job table [uploads], the
    command handler of [initInputEvents] and the XHR listeners of
    [uploadFile]), followed by the properties established about them.

    Conventions of the embedding.
    - A JavaScript [number] is an IEEE 754 double and its arithmetic
      rounds as the standard says.  [Math.log], which the language
      leaves to the engine, is the logarithm of fdlibm.  The byte counts
      of an event and the readings of the clock are integers; the
      counters [time] and [load] of a request, which the code only adds
      and subtracts, are kept as integers too (below 2^53 these sums are
      exact in doubles), and become numbers where the code multiplies or
      divides them.
    - Objects of type [UploadFile] are shared and mutated in place, so
      they live in a store ([heap]) and are passed around by reference.
    - Everything the service reads from its environment is an explicit
      input: the clock ([new Date().getTime()]), whether [xhr.open],
      [xhr.setRequestHeader] or [xhr.send] throws, the results of
      [Math.random] in [generateId], and the progress/load notifications
      of each request.
    - [serviceEvents.emit] is recorded as the list of outputs of a step;
      an exception escaping a handler is the flag [thrown]. *)

From Stdlib Require Import ZArith QArith Qround Lqa SpecFloat String Ascii DecimalString Lia List.
From stdpp Require Import base list strings.

Open Scope Z_scope.

(** ** JavaScript numbers *)

(** A [number] is an IEEE 754 double, in the executable specification of
    the standard library: zeros, infinities, [NaN], and [m * 2^e] with its
    sign.  The four operations round to nearest, ties to even. *)
Definition number : Type := spec_float.
Definition prec : Z := 53.
Definition emax : Z := 1024.

Definition NaN : number := S754_nan.

(** An integer read as a number: itself up to 2^53, the nearest number
    beyond. *)
Definition int (z : Z) : number := binary_normalize prec emax z 0 false.
Definition num_add : number -> number -> number := SFadd prec emax.
Definition num_sub : number -> number -> number := SFsub prec emax.
Definition num_mul : number -> number -> number := SFmul prec emax.
Definition num_div : number -> number -> number := SFdiv prec emax.

(** The rational a finite number stands for. *)
Definition value (x : number) : Q :=
  match x with
  | S754_finite s m e =>
      let z := if s then Zneg m else Zpos m in
      if 0 <=? e then inject_Z (z * 2 ^ e) else Qmake z (Z.to_pos (2 ^ (- e)))
  | _ => 0%Q
  end.

Definition is_negative (x : number) : bool :=
  match x with
  | S754_zero s | S754_infinity s | S754_finite s _ _ => s
  | S754_nan => false
  end.

(** An integer as a number, [-0] for a zero of negative sign. *)
Definition signed_int (neg : bool) (z : Z) : number :=
  if (z =? 0) && neg then S754_zero true else int z.

(** [isFinite]. *)
Definition isFinite (x : number) : bool :=
  match x with
  | S754_zero _ | S754_finite _ _ _ => true
  | _ => false
  end.

Definition is_zero (x : number) : bool :=
  match x with
  | S754_zero _ => true
  | _ => false
  end.

(** [Math.floor]. *)
Definition Math_floor (x : number) : number :=
  match x with
  | S754_finite _ _ _ => int (Qfloor (value x))
  | _ => x
  end.

(** [Math.round]: the nearest integer, ties toward +Infinity. *)
Definition Math_round (x : number) : number :=
  match x with
  | S754_finite s _ _ => signed_int s (Qfloor (value x + (1 # 2)))
  | _ => x
  end.

(** *** Number to string, as far as [parseInt] reads it *)

Definition pow10 (t : Z) : Q :=
  if 0 <=? t then inject_Z (10 ^ t) else Qmake 1 (Z.to_pos (10 ^ (- t))).

Fixpoint ilog10_up (fuel : nat) (x : Q) (t : Z) : Z :=
  match fuel with
  | O => t
  | S fuel' => if Qle_bool (pow10 (t + 1)) x then ilog10_up fuel' x (t + 1) else t
  end.

Fixpoint ilog10_down (fuel : nat) (x : Q) (t : Z) : Z :=
  match fuel with
  | O => t
  | S fuel' => if Qle_bool (pow10 t) x then t else ilog10_down fuel' x (t - 1)
  end.

(** The [t] with [10^t <= x < 10^(t+1)], for [x > 0]. *)
Definition ilog10 (x : Q) : Z :=
  let l := Z.log2 (Qnum x) - Z.log2 (Zpos (Qden x)) in
  let t0 := (l * 30103) / 100000 in
  ilog10_up 4 x (ilog10_down 4 x (t0 + 1)).

Definition Qlt_bool (a b : Q) : bool := negb (Qle_bool b a).

(** The reals that read back as the positive number [m * 2^e]: between
    the midpoints to its neighbours, which belong to it when [m] is even. *)
Definition reads_back (m : positive) (e : Z) (c : Q) : bool :=
  let y2 := fun (z : Z) (e' : Z) => value (S754_finite false (Z.to_pos z) e') in
  let high := y2 (2 * Zpos m + 1) (e - 1) in
  let low :=
    if (Zpos m =? 2 ^ 52) && (-1074 <? e) then y2 (4 * Zpos m - 1) (e - 2)
    else y2 (2 * Zpos m - 1) (e - 1) in
  if Z.even (Zpos m) then Qle_bool low c && Qle_bool c high
  else Qlt_bool low c && Qlt_bool c high.

(** The digits [d] and exponent [j] of the shortest decimal [d * 10^j]
    that reads back as [m * 2^e], the closest to it among the shortest. *)
Fixpoint shortest (fuel : nat) (n : Z) (m : positive) (e : Z) (t : Z) : Z * Z :=
  let y := value (S754_finite false m e) in
  let j := t - n + 1 in
  let lo := Qfloor (y / pow10 j) in
  let hi := lo + 1 in
  let clo := (inject_Z lo * pow10 j)%Q in
  let chi := (inject_Z hi * pow10 j)%Q in
  let oklo := reads_back m e clo in
  let okhi := reads_back m e chi in
  let pick_lo := (lo, j) in
  let pick_hi := (hi, j) in
  match fuel with
  | O => pick_lo
  | S fuel' =>
      if oklo && okhi then
        match Qcompare (y - clo) (chi - y) with
        | Lt => pick_lo
        | Gt => pick_hi
        | Eq => if Z.even lo then pick_lo else pick_hi
        end
      else if oklo then pick_lo
      else if okhi then pick_hi
      else shortest fuel' (n + 1) m e t
  end.

Definition digits10 (d : Z) : Z := ilog10 (inject_Z d) + 1.

(** [parseInt(x as any, 10)]: the number is converted to a string, whose
    leading integer is read back.  The string is in decimal notation
    from 1e-6 up to 1e21 (excluded) and in exponent notation, one digit
    before the point, elsewhere; ["Infinity"] and ["NaN"] have no
    leading digits. *)
Definition parseInt (x : number) : number :=
  match x with
  | S754_finite s m e =>
      let '(d, j) := shortest 17 1 m e (ilog10 (value (S754_finite false m e))) in
      let n := digits10 d + j in
      let read :=
        if (-6 <? n) && (n <=? 21) then Qfloor (inject_Z d * pow10 j)
        else d / 10 ^ (digits10 d - 1) in
      signed_int s (if s then - read else read)
  | S754_zero _ => int 0
  | _ => NaN
  end.

(** ** Math.log *)

(** [Math.log] is left to the engine by the language; this is the
    algorithm of fdlibm ([e_log.c]), which V8 and SpiderMonkey run:
    [x = 2^k * (1 + f)] with [sqrt(2)/2 < 1 + f < sqrt(2)], a polynomial
    in [s = f / (2 + f)], and [k * ln2] added in two parts. *)

Definition dbl (m : positive) (e : Z) : number := S754_finite false m e.

Definition ln2_hi : number := dbl 0x162e42fee00000 (-53).
Definition ln2_lo : number := dbl 0x1a39ef35793c76 (-85).
Definition Lg1 : number := dbl 0x15555555555593 (-53).
Definition Lg2 : number := dbl 0x1999999997fa04 (-54).
Definition Lg3 : number := dbl 0x12492494229359 (-54).
Definition Lg4 : number := dbl 0x1c71c51d8e78af (-55).
Definition Lg5 : number := dbl 0x17466496cb03de (-55).
Definition Lg6 : number := dbl 0x139a09d078c69f (-55).
Definition Lg7 : number := dbl 0x12f112df3e5244 (-55).
Definition one_third : number := dbl 0x15555555555555 (-54).
Definition half : number := dbl 0x10000000000000 (-53).
Definition one : number := dbl 0x10000000000000 (-52).
Definition two : number := dbl 0x10000000000000 (-51).
Definition two54 : number := dbl 0x10000000000000 2.

Declare Scope num_scope.
Delimit Scope num_scope with num.
Infix "+" := num_add : num_scope.
Infix "-" := num_sub : num_scope.
Infix "*" := num_mul : num_scope.
Infix "/" := num_div : num_scope.

(** The logarithm of [m * 2^e], [m] of 53 bits. *)
Definition log_normal (m : positive) (e : Z) : number :=
  let hx := Z.shiftr (Zpos m - 2 ^ 52) 32 in
  let up := 0x6a09c <=? hx in
  let k := if up then e + 53 else e + 52 in
  let x := dbl m (if up then -53 else -52) in
  let f := (x - one)%num in
  let dk := int k in
  if Z.land (2 + hx) 0xfffff <? 3 then
    match f with
    | S754_zero _ =>
        if k =? 0 then S754_zero false else (dk * ln2_hi + dk * ln2_lo)%num
    | _ =>
        let R := (f * f * (half - one_third * f))%num in
        if k =? 0 then (f - R)%num
        else (dk * ln2_hi - ((R - dk * ln2_lo) - f))%num
    end
  else
    let s := (f / (two + f))%num in
    let z := (s * s)%num in
    let w := (z * z)%num in
    let t1 := (w * (Lg2 + w * (Lg4 + w * Lg6)))%num in
    let t2 := (z * (Lg1 + w * (Lg3 + w * (Lg5 + w * Lg7))))%num in
    let R := (t2 + t1)%num in
    if (0x6147a <=? hx) && (hx <=? 0x6b851) then
      let hfsq := (half * f * f)%num in
      if k =? 0 then (f - (hfsq - s * (hfsq + R)))%num
      else (dk * ln2_hi - ((hfsq - (s * (hfsq + R) + dk * ln2_lo)) - f))%num
    else
      if k =? 0 then (f - s * (f - R))%num
      else (dk * ln2_hi - ((s * (f - R) - dk * ln2_lo) - f))%num.

Definition Math_log (x : number) : number :=
  match x with
  | S754_nan => NaN
  | S754_zero _ => S754_infinity true
  | S754_infinity false => S754_infinity false
  | S754_infinity true => NaN
  | S754_finite true _ _ => NaN
  | S754_finite false m e =>
      if Zpos m <? 2 ^ 52 then
        match (x * two54)%num with
        | S754_finite false m' e' => log_normal m' (e' - 54)
        | _ => NaN
        end
      else log_normal m e
  end.

(** ** humanizeBytes *)

Definition k : Z := 1024.

Definition sizes : list string := ["Bytes"; "KB"; "MB"; "GB"; "TB"; "PB"]%string.

(** [Math.floor(Math.log(bytes) / Math.log(k))], computed in doubles. *)
Definition unit_index (bytes : number) : number :=
  Math_floor (num_div (Math_log bytes) (Math_log (int k))).

(** The integer a result of [Math.floor] is; [None] for [NaN] and the
    infinities. *)
Definition integer_of (i : number) : option Z :=
  match i with
  | S754_zero _ => Some 0
  | S754_finite _ _ _ => Some (Qfloor (value i))
  | _ => None
  end.

(** The index as an integer, when it is one. *)
Definition log_k_floor (bytes : number) : option Z := integer_of (unit_index bytes).

(** [Math.pow(k, i)] for an integer [i]: the power of two [2^(10 i)],
    which is a number, but for the largest and smallest [i], where it is
    rounded (to [Infinity], to 0). *)
Definition Math_pow_k (i : Z) : number := binary_normalize prec emax 1 (10 * i) false.

(** [Math.pow(k, i)] for a result [i] of [Math.floor]. *)
Definition Math_pow (i : number) : number :=
  match integer_of i with
  | Some z => Math_pow_k z
  | None =>
      match i with
      | S754_infinity false => S754_infinity false
      | S754_infinity true => S754_zero false
      | _ => NaN
      end
  end.

(** [x.toFixed(2)] followed by [parseFloat]: the value in hundredths,
    nearest, ties upward. *)
Definition toFixed2 (x : Q) : Z := Qfloor (x * inject_Z 100 + (1 # 2)).

Definition show_Z (z : Z) : string := NilZero.string_of_int (Z.to_int z).

(** The string of a non-negative number given in hundredths, as
    [ToString] prints it: no trailing zeros, no point for an integer. *)
Definition show_hundredths (m : Z) : string :=
  let ip := m / 100 in
  let fp := m mod 100 in
  if fp =? 0 then show_Z ip
  else if fp mod 10 =? 0 then show_Z ip +:+ "." +:+ show_Z (fp / 10)
  else if fp <? 10 then show_Z ip +:+ ".0" +:+ show_Z fp
  else show_Z ip +:+ "." +:+ show_Z fp.

(** [parseFloat(q.toFixed(2))] as a string.  [q] is the quotient of a
    positive number: it is not negative, and where it is finite it is far
    below 1e21, so that [toFixed] writes its digits; the number read back
    from two decimals prints as these two decimals. *)
Definition show_fixed2 (q : number) : string :=
  match q with
  | S754_nan => "NaN"
  | S754_infinity _ => "Infinity"
  | S754_zero _ => "0"
  | S754_finite _ _ _ => show_hundredths (toFixed2 (value q))
  end.

(** [sizes[i]]: [undefined] outside the array. *)
Definition sizes_at (i : Z) : option string :=
  if i <? 0 then None else sizes !! Z.to_nat i.

(** [sizes[i]] for a result [i] of [Math.floor]. *)
Definition unit_at (i : number) : option string :=
  match integer_of i with
  | Some z => sizes_at z
  | None => None
  end.

(** [x + ' ' + sizes[i]]: an [undefined] unit is spelled out. *)
Definition with_unit (x : string) (u : option string) : string :=
  x +:+ " " +:+ default "undefined"%string u.

Definition humanizeBytes (bytes : number) : string :=
  match bytes with
  | S754_zero _ => "0 Byte"%string
  | _ =>
      let i := unit_index bytes in
      with_unit (show_fixed2 (num_div bytes (Math_pow i))) (unit_at i)
  end.

(** ** Data model *)

Inductive UploadStatus : Type := Queue | Uploading | Done.

Record ProgressData : Type := {
  percentage : number;
  speed : option number;          (* [None] is [null] *)
  speedHuman : option string
}.

Record UploadProgress : Type := {
  status : UploadStatus;
  data : option ProgressData
}.

(** A DOM [File], as far as [handleFiles] reads it. *)
Record File : Type := {
  file_name : string;
  file_size : Z;
  file_type : string;
  file_lastModifiedDate : Z
}.

Record UploadFile : Type := {
  id : string;
  fileIndex : nat;
  lastModifiedDate : Z;
  name : string;
  size : Z;
  type : string;
  progress : UploadProgress
}.

(** A reference to an [UploadFile] object in the store. *)
Definition ref : Type := nat.

Inductive OutputType : Type :=
  | addedToQueue | allAddedToQueue | uploading | done | removed | start | cancelled.

#[global] Instance OutputType_eq_dec : EqDecision OutputType.
Proof. solve_decision. Defined.

#[global] Instance UploadStatus_eq_dec : EqDecision UploadStatus.
Proof. solve_decision. Defined.

Record UploadOutput : Type := {
  out_type : OutputType;
  out_file : option ref
}.

Definition output (t : OutputType) (f : ref) : UploadOutput :=
  {| out_type := t; out_file := Some f |}.

(** The commands of [UploadInput], with the fields their handler reads.
    [uploadFile] carries the [UploadFile] object it was given, if any
    ([file] is optional); the [id] of [cancel] is optional. *)
Inductive UploadInput : Type :=
  | In_uploadAll (url : string) (method : option string)
  | In_uploadFile (file : option ref) (url : string) (method : option string)
  | In_cancel (id : option string)
  | In_cancelAll.

(** [this.fileList]: the [FileList] handed to [handleFiles], the plain
    array [[].filter.call] leaves there (an array has no [item] method),
    or nothing ([undefined] after construction, [null] after cancelAll). *)
Inductive FileListValue : Type :=
  | FileListObj (l : list File)
  | FileArray (l : list File)
  | NoFileList.

(** One subscription to the observable of [uploadFile]: its request and
    the variables [time] and [load] its listeners close over.  [closed]
    holds once the observer has completed or has been unsubscribed; a
    closed observer drops [next]. *)
Record Subscription : Type := {
  sub_file : ref;
  sub_method : string;
  sub_url : string;
  time : Z;
  load : Z;
  closed : bool
}.

(** An element of [this.uploads]; [sub] is the handle of a subscription. *)
Record Upload : Type := {
  up_file : ref;
  sub : nat
}.

Record NgUploaderService : Type := {
  fileList : FileListValue;
  files : list ref;
  uploads : list Upload;
  heap : list UploadFile;
  subs : list Subscription
}.

(** The constructor. *)
Definition new_service : NgUploaderService :=
  {| fileList := NoFileList; files := []; uploads := []; heap := []; subs := [] |}.

(** What a handler did: the state it leaves, the events it emitted on
    [serviceEvents] in order, and whether it ended by throwing. *)
Record Outcome : Type := {
  after : NgUploaderService;
  emitted : list UploadOutput;
  thrown : bool
}.

Definition raw_files (v : FileListValue) : list File :=
  match v with
  | FileListObj l | FileArray l => l
  | NoFileList => []
  end.

Definition set_progress (p : UploadProgress) (f : UploadFile) : UploadFile :=
  {| id := id f; fileIndex := fileIndex f; lastModifiedDate := lastModifiedDate f;
     name := name f; size := size f; type := type f; progress := p |}.

(** [file.progress = p] on the object behind [r]. *)
Definition write_progress (r : ref) (p : UploadProgress) (h : list UploadFile)
  : list UploadFile :=
  match h !! r with
  | Some f => <[r := set_progress p f]> h
  | None => h
  end.

Definition status_of (h : list UploadFile) (r : ref) : option UploadStatus :=
  (fun f => status (progress f)) <$> h !! r.

(** ** handleFiles *)

Definition queued : UploadProgress :=
  {| status := Queue;
     data := Some {| percentage := int 0; speed := None; speedHuman := None |} |}.

(** The object built for the [i]-th file; [gen i] is what [generateId]
    returned for it. *)
Definition new_upload_file (gen : nat -> string) (i : nat) (file : File) : UploadFile :=
  {| fileIndex := i;
     id := gen i;
     name := file_name file;
     size := file_size file;
     type := file_type file;
     progress := queued;
     lastModifiedDate := file_lastModifiedDate file |}.

Definition handleFiles (gen : nat -> string) (fl : list File) (s : NgUploaderService)
  : Outcome :=
  let objs := imap (new_upload_file gen) fl in
  let refs := seq (length (heap s)) (length fl) in
  {| after := {| fileList := FileListObj fl;
                 files := refs;
                 uploads := uploads s;
                 heap := heap s ++ objs;
                 subs := subs s |};
     emitted := (output addedToQueue <$> refs)
                  ++ [ {| out_type := allAddedToQueue; out_file := None |} ];
     thrown := false |}.

(** ** uploadFile: one request and its listeners *)

Record ProgressEvent : Type := {
  lengthComputable : bool;
  loaded : Z;
  total : Z
}.

(** What [uploadFile] reads from its environment when it is subscribed
    to: the clock, whether [xhr.open] or [xhr.setRequestHeader] throws
    (a method, a URL or a header value the browser refuses), and whether
    [xhr.send] throws. *)
Record Env : Type := {
  now : Z;
  open_throws : bool;
  send_throws : bool
}.

(** [observer.next(v)]: delivered unless the observer is closed. *)
Definition next (sb : Subscription) (v : UploadOutput) : list UploadOutput :=
  if closed sb then [] else [v].

(** [observer.complete()], and [sub.unsubscribe()]. *)
Definition close (sb : Subscription) : Subscription :=
  {| sub_file := sub_file sb; sub_method := sub_method sb; sub_url := sub_url sb;
     time := time sb; load := load sb; closed := true |}.

(** [parseInt((load / diff * 1000) as any, 10)]. *)
Definition speed_of (load diff : Z) : number :=
  parseInt (num_mul (num_div (int load) (int diff)) (int 1000)).

(** The ['progress'] listener; [t] is [new Date().getTime()]. *)
Definition on_progress (t : Z) (e : ProgressEvent) (sb : Subscription)
    (h : list UploadFile) : Subscription * list UploadFile * list UploadOutput :=
  if lengthComputable e then
    let percentage :=
      Math_round (num_div (num_mul (int (loaded e)) (int 100)) (int (total e))) in
    let diff := t - time sb in
    let time' := time sb + diff in
    let load' := loaded e - load sb in
    let speed := speed_of load' diff in
    let p := {| status := Uploading;
                data := Some {| percentage := percentage;
                                speed := Some speed;
                                speedHuman := Some (humanizeBytes speed +:+ "/s") |} |} in
    ({| sub_file := sub_file sb; sub_method := sub_method sb; sub_url := sub_url sb;
        time := time'; load := load'; closed := closed sb |},
     write_progress (sub_file sb) p h,
     next sb (output uploading (sub_file sb)))
  else (sb, h, []).

Definition finished : UploadProgress :=
  {| status := Done;
     data := Some {| percentage := int 100; speed := None; speedHuman := None |} |}.

(** The ['load'] listener. *)
Definition on_load (sb : Subscription) (h : list UploadFile)
  : Subscription * list UploadFile * list UploadOutput :=
  (close sb, write_progress (sub_file sb) finished h, next sb (output done (sub_file sb))).

(** [this.fileList.item] exists on a [FileList] only. *)
Definition has_item (v : FileListValue) : bool :=
  match v with
  | FileListObj _ => true
  | _ => false
  end.

(** Subscribing to [uploadFile(file, url, method)]: [time] and [load] are
    initialised, the listeners registered, the request opened and sent.
    The [try] block throws when [xhr.send] does, or when [this.fileList]
    has no [item] to call; the observer is then completed at once.
    This is the subscription when nothing throws before the [try] block;
    [start_upload] has the other case. *)
Definition uploadFile (env : Env) (file : ref) (url : string) (method : option string)
    (s : NgUploaderService) : Subscription :=
  {| sub_file := file;
     sub_method := default "POST"%string method;
     sub_url := url;
     time := now env;
     load := 0;
     closed := send_throws env || negb (has_item (fileList s)) |}.

(** ** initInputEvents: the command handler *)

(** The body shared by ['uploadFile'] and by each round of ['uploadAll']:
    [start] is emitted, the observable is subscribed to and the job is
    pushed.  What throws before the [try] block of [uploadFile] -
    [xhr.open], [xhr.setRequestHeader], or reading [file.type] when the
    command carries no file - leaves [subscribe] and the handler: the
    third component is [true] and no job is pushed. *)
Definition start_upload (env : Env) (file : option ref) (url : string)
    (method : option string) (s : NgUploaderService)
  : NgUploaderService * list UploadOutput * bool :=
  let out := [ {| out_type := start; out_file := file |} ] in
  match file with
  | Some f =>
      if open_throws env then (s, out, true)
      else
        ({| fileList := fileList s; files := files s;
            uploads := uploads s ++ [ {| up_file := f; sub := length (subs s) |} ];
            heap := heap s;
            subs := subs s ++ [uploadFile env f url method s] |},
         out, false)
  | None => (s, out, true)
  end.

(** [this.files.forEach(...)]; the [i]-th round reads [env i].  A round
    that throws ends the loop. *)
Fixpoint start_all (env : nat -> Env) (i : nat) (fs : list ref) (url : string)
    (method : option string) (s : NgUploaderService)
  : NgUploaderService * list UploadOutput * bool :=
  match fs with
  | [] => (s, [], false)
  | f :: fs' =>
      let '(s1, o1, t1) := start_upload (env i) (Some f) url method s in
      if t1 then (s1, o1, true)
      else
        let '(s2, o2, t2) := start_all env (S i) fs' url method s1 in
        (s2, o1 ++ o2, t2)
  end.

(** The rounds of [forEach] that run to their end: those before the
    first that throws. *)
Fixpoint rounds_completed (env : nat -> Env) (i : nat) (fs : list ref) : nat :=
  match fs with
  | [] => 0
  | _ :: fs' => if open_throws (env i) then 0 else S (rounds_completed env (S i) fs')
  end.

(** [[].filter.call(l, (x, i) => p i)], counting from [i]. *)
Fixpoint filter_index {A : Type} (p : nat -> bool) (i : nat) (l : list A) : list A :=
  match l with
  | [] => []
  | x :: l' => if p i then x :: filter_index p (S i) l' else filter_index p (S i) l'
  end.

(** [upload.file.id === key]. *)
Definition has_id (h : list UploadFile) (key : string) (u : Upload) : Prop :=
  id <$> h !! up_file u = Some key.

#[global] Instance has_id_dec h key u : Decision (has_id h key u).
Proof. unfold has_id. apply _. Defined.

(** [this.uploads.findIndex(upload => upload.file.id === key)]. *)
Definition find_upload (s : NgUploaderService) (key : string) : option (nat * Upload) :=
  list_find (has_id (heap s) key) (uploads s).

Definition unsubscribe (handle : nat) (r : list Subscription) : list Subscription :=
  alter close handle r.

Definition cancel (key : option string) (s : NgUploaderService) : Outcome :=
  match key with
  | None | Some EmptyString => {| after := s; emitted := []; thrown := false |}
  | Some key =>
      match find_upload s key with
      | None => {| after := s; emitted := []; thrown := false |}
      | Some (index, u) =>
          let subs1 := unsubscribe (sub u) (subs s) in
          let out := [output cancelled (up_file u)] in
          let uploads1 := delete index (uploads s) in
          match fileList s with
          | NoFileList =>
              (* [[].filter.call(null, ...)] is a TypeError *)
              {| after := {| fileList := NoFileList; files := files s;
                             uploads := uploads1; heap := heap s; subs := subs1 |};
                 emitted := out; thrown := true |}
          | FileListObj l | FileArray l =>
              {| after := {| fileList :=
                               FileArray (filter_index (fun i => negb (i =? index)%nat) 0 l);
                             files := delete index (files s);
                             uploads := uploads1; heap := heap s; subs := subs1 |};
                 emitted := out; thrown := false |}
          end
      end
  end.

Definition cancelAll (s : NgUploaderService) : Outcome :=
  {| after := {| fileList := NoFileList; files := []; uploads := [];
                 heap := heap s;
                 subs := foldl (fun r u => unsubscribe (sub u) r) (subs s) (uploads s) |};
     emitted := (fun u => output cancelled (up_file u)) <$> uploads s;
     thrown := false |}.

Definition on_input (env : nat -> Env) (event : UploadInput) (s : NgUploaderService)
  : Outcome :=
  match event with
  | In_uploadFile file url method =>
      let '(s', out, t) := start_upload (env 0%nat) file url method s in
      {| after := s'; emitted := out; thrown := t |}
  | In_uploadAll url method =>
      let '(s', out, t) := start_all env 0 (files s) url method s in
      {| after := s'; emitted := out; thrown := t |}
  | In_cancel key => cancel key s
  | In_cancelAll => cancelAll s
  end.

(** ** The service as a reactive system *)

Inductive Stimulus : Type :=
  | Browse (gen : nat -> string) (fl : list File)       (* [handleFiles(fl)] *)
  | Command (env : nat -> Env) (event : UploadInput)    (* [input.emit(event)] *)
  | Xhr_progress (handle : nat) (t : Z) (e : ProgressEvent)
                                                        (* ['progress'] of a request *)
  | Xhr_load (handle : nat).                            (* ['load'] of a request *)

Definition deliver (handle : nat)
    (listener : Subscription -> list UploadFile ->
                Subscription * list UploadFile * list UploadOutput)
    (s : NgUploaderService) : Outcome :=
  match subs s !! handle with
  | Some sb =>
      let '(sb', h', out) := listener sb (heap s) in
      {| after := {| fileList := fileList s; files := files s; uploads := uploads s;
                     heap := h'; subs := <[handle := sb']> (subs s) |};
         emitted := out; thrown := false |}
  | None => {| after := s; emitted := []; thrown := false |}
  end.

Definition step (x : Stimulus) (s : NgUploaderService) : Outcome :=
  match x with
  | Browse gen fl => handleFiles gen fl s
  | Command env event => on_input env event s
  | Xhr_progress handle t e => deliver handle (on_progress t e) s
  | Xhr_load handle => deliver handle on_load s
  end.

(** A whole history: the final state and everything emitted, in order. *)
Fixpoint run (xs : list Stimulus) (s : NgUploaderService)
  : NgUploaderService * list UploadOutput :=
  match xs with
  | [] => (s, [])
  | x :: xs' =>
      let o := step x s in
      let '(s', out) := run xs' (after o) in
      (s', emitted o ++ out)
  end.

(** ** One subscription in isolation *)

(** What can happen to one subscription: a tick of its request, the
    completion of its request, and the [unsubscribe] of a cancellation. *)
Inductive Notification : Type :=
  | Tick (t : Z) (e : ProgressEvent)
  | Completed
  | Unsubscribed.

Definition notify (n : Notification) (sb : Subscription) (h : list UploadFile)
  : Subscription * list UploadFile * list UploadOutput :=
  match n with
  | Tick t e => on_progress t e sb h
  | Completed => on_load sb h
  | Unsubscribed => (close sb, h, [])
  end.

Fixpoint drive (ns : list Notification) (sb : Subscription) (h : list UploadFile)
  : Subscription * list UploadFile * list UploadOutput :=
  match ns with
  | [] => (sb, h, [])
  | n :: ns' =>
      let '(sb1, h1, o1) := notify n sb h in
      let '(sb2, h2, o2) := drive ns' sb1 h1 in
      (sb2, h2, o1 ++ o2)
  end.

(** [file.progress.data.speed] of the object behind [r]. *)
Definition speed_at (h : list UploadFile) (r : ref) : option number :=
  match h !! r with
  | Some f =>
      match data (progress f) with
      | Some d => speed d
      | None => None
      end
  | None => None
  end.

(** The speed each of the given ticks [(t, loaded)] writes to the entry. *)
Fixpoint speeds_reported (ticks : list (Z * Z)) (total : Z) (sb : Subscription)
    (h : list UploadFile) : list (option number) :=
  match ticks with
  | [] => []
  | (t, l) :: ticks' =>
      let e := {| lengthComputable := true; loaded := l; total := total |} in
      let '(sb', h', _) := on_progress t e sb h in
      speed_at h' (sub_file sb) :: speeds_reported ticks' total sb' h'
  end.

(** The moves of the progress status: [Queue -> Uploading* -> Done]. *)
Inductive transition : UploadStatus -> UploadStatus -> Prop :=
  | stays (st : UploadStatus) : transition st st
  | begins : transition Queue Uploading
  | ends_queued : transition Queue Done
  | ends_uploading : transition Uploading Done.

(** The subscription behind [handle] exists and is closed. *)
Definition closed_at (s : NgUploaderService) (handle : nat) : Prop :=
  exists sb, subs s !! handle = Some sb /\ closed sb = true.

(** A notification of the request behind [handle]. *)
Definition concerns (handle : nat) (x : Stimulus) : Prop :=
  x = Xhr_load handle \/ exists t e, x = Xhr_progress handle t e.

(** ** Observations on a state *)

(** [this.fileList.item(file.fileIndex)], the argument of [xhr.send].
    [None]: evaluating it throws; [Some None]: [item] answered [null]. *)
Definition send_argument (s : NgUploaderService) (file : ref) : option (option File) :=
  match fileList s with
  | FileListObj l =>
      match heap s !! file with
      | Some f => Some (l !! fileIndex f)
      | None => None
      end
  | _ => None
  end.

(** The fields [handleFiles] copies from a raw file. *)
Definition built_from (f : UploadFile) (raw : File) : Prop :=
  name f = file_name raw /\ size f = file_size raw /\ type f = file_type raw /\
  lastModifiedDate f = file_lastModifiedDate raw.

(** Everything of an entry but its progress. *)
Definition same_metadata (f f' : UploadFile) : Prop :=
  id f' = id f /\ fileIndex f' = fileIndex f /\ name f' = name f /\
  size f' = size f /\ type f' = type f /\ lastModifiedDate f' = lastModifiedDate f.

(** Position by position, the registry holds the entry of the raw file. *)
Definition aligned (s : NgUploaderService) : Prop :=
  Forall2 (fun r raw => exists f, heap s !! r = Some f /\ built_from f raw)
          (files s) (raw_files (fileList s)).

(** While [this.fileList] is a [FileList], the entry at position [i] of
    the registry has [fileIndex] [i]. *)
Definition indexed (s : NgUploaderService) : Prop :=
  has_item (fileList s) = true ->
  forall (i : nat) (r : ref), files s !! i = Some r ->
    exists f, heap s !! r = Some f /\ fileIndex f = i.

Definition is_Browse (x : Stimulus) : bool :=
  match x with
  | Browse _ _ => true
  | _ => false
  end.

(** [file.progress.data.percentage] of the object behind [r]. *)
Definition percentage_at (h : list UploadFile) (r : ref) : option number :=
  match h !! r with
  | Some f =>
      match data (progress f) with
      | Some d => Some (percentage d)
      | None => None
      end
  | None => None
  end.

(** [file.progress.data.speedHuman] of the object behind [r]. *)
Definition speedHuman_at (h : list UploadFile) (r : ref) : option string :=
  match h !! r with
  | Some f =>
      match data (progress f) with
      | Some d => speedHuman d
      | None => None
      end
  | None => None
  end.


(** ** Scenarios *)

Definition a_txt : File :=
  {| file_name := "a.txt"; file_size := 100; file_type := "text/plain";
     file_lastModifiedDate := 0 |}.

Definition b_txt : File :=
  {| file_name := "b.txt"; file_size := 200; file_type := "text/plain";
     file_lastModifiedDate := 0 |}.

(** [generateId] returning "a" and then "b". *)
Definition ids_ab (i : nat) : string :=
  match i with
  | O => "a"
  | _ => "b"
  end.

(** The clock reads 0 and nothing throws. *)
Definition quiet (i : nat) : Env :=
  {| now := 0; open_throws := false; send_throws := false |}.

Definition tick_of (l : Z) : ProgressEvent :=
  {| lengthComputable := true; loaded := l; total := 3000 |}.

(** Two files are selected and the second one is started. *)
Definition second_started : NgUploaderService :=
  fst (run [Browse ids_ab [a_txt; b_txt];
            Command quiet (In_uploadFile (Some 1%nat) "/upload" None)] new_service).

(** One file is selected, started and uploaded to the end. *)
Definition uploaded_once : list Stimulus :=
  [Browse ids_ab [a_txt]; Command quiet (In_uploadAll "/upload" None); Xhr_load 0].

(** * Properties *)

(** ** humanizeBytes on concrete inputs *)

Example humanizeBytes_2048 : humanizeBytes (int 2048) = "2 KB"%string.
Proof. vm_compute. reflexivity. Qed.

Example humanizeBytes_1MB : humanizeBytes (int 1300000) = "1.24 MB"%string.
Proof. vm_compute. reflexivity. Qed.

Example humanizeBytes_half : humanizeBytes half = "512 undefined"%string.
Proof. vm_compute. reflexivity. Qed.

Example humanizeBytes_NaN : humanizeBytes NaN = "NaN undefined"%string.
Proof. vm_compute. reflexivity. Qed.

(** The quotient of the two logarithms is a double: for 1000 bytes it is
    below 1 and the index is 0, for one byte less than 1024^5 it is 5
    already. *)
Example humanizeBytes_1000 : humanizeBytes (int 1000) = "1000 Bytes"%string.
Proof. vm_compute. reflexivity. Qed.

Example humanizeBytes_below_1024_pow_5 :
  log_k_floor (int (k ^ 5 - 1)) = Some 5 /\
  humanizeBytes (int (k ^ 5 - 1)) = "1 PB"%string.
Proof. vm_compute. split; reflexivity. Qed.

(** Rounding to two decimals reaches 1024 without the unit moving on. *)
Example humanizeBytes_below_1024_pow_2 :
  humanizeBytes (int (k ^ 2 - 1)) = "1024 KB"%string.
Proof. vm_compute. reflexivity. Qed.

Example humanizeBytes_exabyte : humanizeBytes (int (k ^ 6)) = "1 undefined"%string.
Proof. vm_compute. reflexivity. Qed.

(** ** The unit of humanizeBytes *)

Lemma sizes_at_in_range (i : Z) :
  0 <= i <= 5 -> exists u, sizes_at i = Some u /\ u ∈ sizes.
Proof.
  intros Hi. unfold sizes_at.
  destruct (Z.ltb_spec i 0) as [Hneg | _]; [lia |].
  assert (Hlt : (Z.to_nat i < length sizes)%nat) by (simpl; lia).
  destruct (lookup_lt_is_Some_2 sizes (Z.to_nat i) Hlt) as [u Hu].
  exists u. split; [exact Hu |].
  apply list_elem_of_lookup. exists (Z.to_nat i). exact Hu.
Qed.

Lemma sizes_at_negative (i : Z) : i < 0 -> sizes_at i = None.
Proof.
  intros Hi. unfold sizes_at.
  destruct (Z.ltb_spec i 0) as [_ | Hge]; [reflexivity | lia].
Qed.

Lemma sizes_at_past_the_end (i : Z) : 5 < i -> sizes_at i = None.
Proof.
  intros Hi. unfold sizes_at.
  destruct (Z.ltb_spec i 0) as [_ | _]; [reflexivity |].
  apply lookup_ge_None. simpl. lia.
Qed.

(** For the six units, [Math.pow(k, i)] is [1024^i]. *)
Lemma Math_pow_k_in_range (i : Z) :
  0 <= i <= 5 -> (value (Math_pow_k i) == inject_Z (k ^ i))%Q.
Proof.
  intros Hi.
  assert (H : i = 0 \/ i = 1 \/ i = 2 \/ i = 3 \/ i = 4 \/ i = 5) by lia.
  destruct H as [-> | [-> | [-> | [-> | [-> | ->]]]]]; vm_compute; reflexivity.
Qed.

(** Two decimals: the hundredth nearest to the number. *)
Lemma toFixed2_nearest (x : Q) :
  (inject_Z (toFixed2 x) - (1 # 2) <= x * inject_Z 100
     /\ x * inject_Z 100 < inject_Z (toFixed2 x) + (1 # 2))%Q.
Proof.
  unfold toFixed2.
  pose proof (Qfloor_le (x * inject_Z 100 + (1 # 2))) as Hlo.
  pose proof (Qlt_floor (x * inject_Z 100 + (1 # 2))) as Hhi.
  rewrite inject_Z_plus in Hhi.
  set (y := (x * inject_Z 100)%Q) in *.
  set (m := inject_Z (Qfloor (y + (1 # 2)))) in *.
  change (inject_Z 1) with 1%Q in Hhi.
  split; lra.
Qed.

(** The body of [humanizeBytes] on a number that has an index. *)
Lemma humanizeBytes_finite (s : bool) (m : positive) (e i : Z) :
  log_k_floor (S754_finite s m e) = Some i ->
  humanizeBytes (S754_finite s m e) =
    with_unit (show_fixed2 (num_div (S754_finite s m e) (Math_pow_k i))) (sizes_at i).
Proof.
  unfold log_k_floor. intros Hi.
  cbv beta iota zeta delta [humanizeBytes Math_pow unit_at]. rewrite Hi. reflexivity.
Qed.






(** The general part of C7 fails past the list of units. *)
Lemma humanizeBytes_has_no_unit_for_2_pow_63 :
  humanizeBytes (int (2 ^ 63)) = "8 undefined"%string.
Proof. vm_compute. reflexivity. Qed.

(** C7.  [humanizeBytes(0)] is "0 Byte", [humanizeBytes(1024)] is "1 KB",
    [humanizeBytes(1536)] is "1.5 KB".  On a number [bytes] with index
    [i = Math.floor(Math.log(bytes) / Math.log(1024))] the result is the
    quotient [bytes / Math.pow(1024, i)] rounded to two decimals, a space,
    and [sizes[i]]: for [i] from 0 to 5 the divisor is [1024^i] and the
    unit is the [i]-th of Bytes/KB/MB/GB/TB/PB; for any other [i] there is
    no unit and the result ends in "undefined".  Being a function of its
    argument alone, it is deterministic and has no effect. *)
Theorem humanizeBytes_units_two_decimals :
  humanizeBytes (int 0) = "0 Byte"%string /\
  humanizeBytes (int 1024) = "1 KB"%string /\
  humanizeBytes (int 1536) = "1.5 KB"%string /\
  forall (s : bool) (m : positive) (e i : Z),
    let bytes := S754_finite s m e in
    let q := num_div bytes (Math_pow_k i) in
    log_k_floor bytes = Some i ->
    humanizeBytes bytes =
      show_fixed2 q +:+ " " +:+ default "undefined"%string (sizes_at i) /\
    (0 <= i <= 5 ->
       (value (Math_pow_k i) == inject_Z (k ^ i))%Q /\
       exists u, sizes !! Z.to_nat i = Some u /\ sizes_at i = Some u) /\
    (i < 0 \/ 5 < i -> sizes_at i = None) /\
    (forall s' m' e', q = S754_finite s' m' e' ->
       exists hundredths : Z,
         show_fixed2 q = show_hundredths hundredths /\
         (inject_Z hundredths - (1 # 2) <= value q * inject_Z 100
            /\ value q * inject_Z 100 < inject_Z hundredths + (1 # 2))%Q).
Proof.
  split; [vm_compute; reflexivity |].
  split; [vm_compute; reflexivity |].
  split; [vm_compute; reflexivity |].
  intros s m e i bytes q Hi.
  split; [exact (humanizeBytes_finite s m e i Hi) |].
  split.
  { intros Hr. split; [exact (Math_pow_k_in_range i Hr) |].
    destruct (sizes_at_in_range i Hr) as [u [Hu _]].
    exists u. split; [| exact Hu].
    unfold sizes_at in Hu.
    destruct (Z.ltb_spec i 0) as [Hneg | _]; [lia | exact Hu]. }
  split.
  { intros [Hneg | Hpast];
      [exact (sizes_at_negative i Hneg) | exact (sizes_at_past_the_end i Hpast)]. }
  intros s' m' e' Hq. exists (toFixed2 (value q)).
  split; [rewrite Hq; reflexivity |].
  exact (toFixed2_nearest (value q)).
Qed.

(** The claim at 1300000 bytes: index 2, "1.24 MB". *)
Lemma humanizeBytes_units_two_decimals_witness :
  log_k_floor (int 1300000) = Some 2 /\
  humanizeBytes (int 1300000) =
    show_fixed2 (num_div (int 1300000) (Math_pow_k 2))
      +:+ " " +:+ default "undefined"%string (sizes_at 2) /\
  sizes_at 2 = Some "MB"%string.
Proof.
  split; [vm_compute; reflexivity |].
  split; [| reflexivity].
  exact (proj1 (proj2 (proj2 (proj2 humanizeBytes_units_two_decimals))
                  false 5583457484800000%positive (-32) 2 eq_refl)).
Defined.

(** ** The registry: handleFiles *)

Lemma count_added (refs : list ref) (rest : list UploadOutput) :
  length (filter (fun e => out_type e = addedToQueue) ((output addedToQueue <$> refs) ++ rest))
  = (length refs + length (filter (fun e => out_type e = addedToQueue) rest))%nat.
Proof.
  induction refs as [| r refs IH]; [reflexivity |].
  change ((output addedToQueue <$> r :: refs) ++ rest)
    with (output addedToQueue r :: ((output addedToQueue <$> refs) ++ rest)).
  rewrite filter_cons_True by reflexivity.
  rewrite length_cons, IH. reflexivity.
Qed.

Lemma count_all_added (refs : list ref) (rest : list UploadOutput) :
  filter (fun e => out_type e = allAddedToQueue) ((output addedToQueue <$> refs) ++ rest)
  = filter (fun e => out_type e = allAddedToQueue) rest.
Proof.
  induction refs as [| r refs IH]; [reflexivity |].
  change ((output addedToQueue <$> r :: refs) ++ rest)
    with (output addedToQueue r :: ((output addedToQueue <$> refs) ++ rest)).
  rewrite filter_cons_False by discriminate. exact IH.
Qed.

(** C5.  [handleFiles] on a batch of N files, whatever the state before:
    it emits N [addedToQueue] events, the i-th carrying the i-th new
    entry, then one [allAddedToQueue]; afterwards the registry holds
    exactly the N new entries, none of them an object that existed
    before, the i-th built from the i-th file with status [Queue],
    percentage 0 and [null] speed. *)
Theorem handleFiles_replaces_batch (gen : nat -> string) (fl : list File)
    (s : NgUploaderService) :
  let o := handleFiles gen fl s in
  length (emitted o) = S (length fl) /\
  length (filter (fun e => out_type e = addedToQueue) (emitted o)) = length fl /\
  length (filter (fun e => out_type e = allAddedToQueue) (emitted o)) = 1%nat /\
  emitted o !! length fl = Some {| out_type := allAddedToQueue; out_file := None |} /\
  length (files (after o)) = length fl /\
  fileList (after o) = FileListObj fl /\
  (forall r, r ∈ files (after o) -> heap s !! r = None) /\
  (forall (i : nat) (file : File), fl !! i = Some file ->
     exists r entry,
       files (after o) !! i = Some r /\
       emitted o !! i = Some (output addedToQueue r) /\
       heap (after o) !! r = Some entry /\
       entry = new_upload_file gen i file /\
       fileIndex entry = i /\ id entry = gen i /\
       status (progress entry) = Queue /\
       data (progress entry) =
         Some {| percentage := int 0; speed := None; speedHuman := None |}).
Proof.
  simpl.
  split. { rewrite length_app, length_fmap, length_seq. simpl. lia. }
  split. { rewrite count_added, length_seq. simpl. lia. }
  split. { rewrite count_all_added. reflexivity. }
  split.
  { rewrite lookup_app_r by (rewrite length_fmap, length_seq; lia).
    rewrite length_fmap, length_seq, Nat.sub_diag. reflexivity. }
  split. { apply length_seq. }
  split; [reflexivity |].
  split.
  { intros r Hr. apply elem_of_seq in Hr. apply lookup_ge_None. lia. }
  intros i file Hi.
  pose proof (lookup_lt_Some _ _ _ Hi) as Hlen.
  exists (length (heap s) + i)%nat, (new_upload_file gen i file).
  split. { apply lookup_seq. split; [reflexivity | exact Hlen]. }
  split.
  { rewrite lookup_app_l by (rewrite length_fmap, length_seq; exact Hlen).
    rewrite list_lookup_fmap, lookup_seq_lt by exact Hlen. reflexivity. }
  split.
  { rewrite lookup_app_r by lia.
    replace (length (heap s) + i - length (heap s))%nat with i by lia.
    rewrite list_lookup_imap, Hi. reflexivity. }
  repeat split; reflexivity.
Qed.

(** The claim on the batch a.txt, b.txt submitted to a fresh service. *)
Lemma handleFiles_replaces_batch_witness :
  exists r entry,
    files (after (handleFiles ids_ab [a_txt; b_txt] new_service)) !! 1%nat = Some r /\
    heap (after (handleFiles ids_ab [a_txt; b_txt] new_service)) !! r = Some entry /\
    status (progress entry) = Queue.
Proof.
  destruct (handleFiles_replaces_batch ids_ab [a_txt; b_txt] new_service)
    as (_ & _ & _ & _ & _ & _ & _ & H).
  destruct (H 1%nat b_txt eq_refl) as (r & entry & Hr & _ & Hh & _ & _ & _ & Hs & _).
  exists r, entry. split; [exact Hr |]. split; [exact Hh | exact Hs].
Defined.

(** ** The dispatcher: cancel and cancelAll *)

(** Past the removed position, [[].filter.call] keeps everything. *)
Lemma filter_index_past {A : Type} (j m : nat) (l : list A) :
  (j < m)%nat -> filter_index (fun i => negb (i =? j)%nat) m l = l.
Proof.
  revert m. induction l as [| x l IH]; intros m Hm; [reflexivity |].
  simpl. destruct (Nat.eqb_spec m j) as [E | _]; [lia |]. simpl.
  rewrite IH by lia. reflexivity.
Qed.

(** [[].filter.call(l, (x, i) => i !== index)] removes position [index]. *)
Lemma filter_index_delete {A : Type} (index j : nat) (l : list A) :
  filter_index (fun i => negb (i =? j + index)%nat) j l = delete index l.
Proof.
  revert index j. induction l as [| x l IH]; intros index j; [reflexivity |].
  destruct index as [| index]; simpl.
  - rewrite Nat.add_0_r, Nat.eqb_refl. simpl. apply filter_index_past. lia.
  - destruct (Nat.eqb_spec j (j + S index)) as [E | _]; [lia |]. simpl.
    f_equal. rewrite <- (IH index (S j)).
    replace (S j + index)%nat with (j + S index)%nat by lia. reflexivity.
Qed.

Lemma find_upload_None (s : NgUploaderService) (key : string) :
  find_upload s key = None <->
  Forall (fun u => id <$> heap s !! up_file u <> Some key) (uploads s).
Proof. unfold find_upload. apply list_find_None. Qed.

(** C4.  A [cancel] whose id is absent (or the empty string), or is the
    id of no job in the job table, emits nothing and leaves the registry,
    the raw file list and the job table (the whole state) as they were. *)
Theorem cancel_unknown_is_noop (env : nat -> Env) (key : option string)
    (s : NgUploaderService) :
  (forall key', key = Some key' ->
     key' = ""%string \/
     Forall (fun u => id <$> heap s !! up_file u <> Some key') (uploads s)) ->
  let o := step (Command env (In_cancel key)) s in
  emitted o = [] /\
  thrown o = false /\
  after o = s /\
  files (after o) = files s /\
  fileList (after o) = fileList s /\
  uploads (after o) = uploads s.
Proof.
  intros Hkey. simpl.
  assert (E : cancel key s = {| after := s; emitted := []; thrown := false |}).
  { unfold cancel. destruct key as [key' |]; [| reflexivity].
    destruct (Hkey key' eq_refl) as [-> | Hnone]; [reflexivity |].
    apply find_upload_None in Hnone. rewrite Hnone.
    destruct key'; reflexivity. }
  rewrite E. simpl. repeat split; reflexivity.
Qed.

(** The claim on a [cancel] of id "a" while only b.txt has a job. *)
Lemma cancel_unknown_is_noop_witness :
  emitted (step (Command quiet (In_cancel (Some "a"%string))) second_started) = [] /\
  after (step (Command quiet (In_cancel (Some "a"%string))) second_started)
    = second_started.
Proof.
  destruct (cancel_unknown_is_noop quiet (Some "a"%string) second_started)
    as (He & _ & Ha & _).
  - intros key' [= <-]. right. repeat constructor. vm_compute. discriminate.
  - split; [exact He | exact Ha].
Defined.

Lemma unsubscribe_all_lookup (us : list Upload) (r : list Subscription) (handle : nat) :
  foldl (fun r u => unsubscribe (sub u) r) r us !! handle
  = (if decide (handle ∈ sub <$> us) then close else fun sb => sb) <$> r !! handle.
Proof.
  revert r. induction us as [| u us IH]; intros r.
  - cbn [foldl]. case_decide as Hin.
    + apply elem_of_nil in Hin. destruct Hin.
    + destruct (r !! handle); reflexivity.
  - cbn [foldl]. rewrite IH. unfold unsubscribe. rewrite fmap_cons.
    destruct (decide (handle = sub u)) as [-> | Hne].
    + rewrite list_lookup_alter_eq.
      rewrite (decide_True (P := sub u ∈ sub u :: _)) by apply list_elem_of_here.
      destruct (r !! sub u) as [sb |]; simpl; case_decide; reflexivity.
    + rewrite list_lookup_alter_ne by congruence.
      case_decide as Hin.
      * rewrite decide_True by (apply list_elem_of_further; exact Hin). reflexivity.
      * rewrite decide_False; [reflexivity |].
        intros Hin'. apply elem_of_cons in Hin'. destruct Hin' as [E | Hin']; [| tauto].
        congruence.
Qed.



(** A successful [cancel] removes, from the registry and from the raw
    file list alike, the position the job has in the job table. *)
Lemma cancel_removes_job_index (key : string) (index : nat) (u : Upload)
    (s : NgUploaderService) :
  key <> ""%string ->
  find_upload s key = Some (index, u) ->
  fileList s <> NoFileList ->
  let o := cancel (Some key) s in
  emitted o = [output cancelled (up_file u)] /\
  uploads (after o) = delete index (uploads s) /\
  files (after o) = delete index (files s) /\
  fileList (after o) = FileArray (delete index (raw_files (fileList s))) /\
  thrown o = false.
Proof.
  intros Hkey Hfind Hlist. unfold cancel. rewrite Hfind.
  destruct key as [| c key']; [congruence |].
  destruct (fileList s) as [l | l |] eqn:E; [| | congruence];
    pose proof (filter_index_delete index 0 l) as Hf; simpl in Hf |- *;
    rewrite Hf; repeat split; reflexivity.
Qed.

(** Started in order, the jobs and the entries have the same positions:
    cancelling the first of two leaves the second at the head of both
    lists. *)
Example cancel_first_of_two_started_in_order :
  let s := fst (run [Browse ids_ab [a_txt; b_txt];
                     Command quiet (In_uploadAll "/upload" None)] new_service) in
  let o := step (Command quiet (In_cancel (Some "a"%string))) s in
  emitted o = [output cancelled 0%nat] /\
  files (after o) = [1%nat] /\
  fileList (after o) = FileArray [b_txt] /\
  uploads (after o) = [ {| up_file := 1%nat; sub := 1%nat |} ].
Proof. vm_compute. repeat split; reflexivity. Qed.

(** C1, on the code: two files are selected, b.txt is started and then
    cancelled by its id.  Its job is the first of the job table, so the
    first entry and the first raw file are removed: a.txt goes, and the
    cancelled b.txt stays in the registry. *)
Theorem cancel_removes_position_of_job_not_entry_of_id :
  let o := step (Command quiet (In_cancel (Some "b"%string))) second_started in
  files second_started = [0%nat; 1%nat] /\
  fileList second_started = FileListObj [a_txt; b_txt] /\
  uploads second_started = [ {| up_file := 1%nat; sub := 0%nat |} ] /\
  id <$> heap second_started !! 0%nat = Some "a"%string /\
  id <$> heap second_started !! 1%nat = Some "b"%string /\
  emitted o = [output cancelled 1%nat] /\
  files (after o) = [1%nat] /\
  fileList (after o) = FileArray [b_txt] /\
  id <$> heap (after o) !! 1%nat = Some "b"%string.
Proof. vm_compute. repeat split; reflexivity. Qed.

(** ** The speed of a tick *)

(** What a tick with a known total leaves in [time] and [load]. *)
Lemma on_progress_variables (t : Z) (e : ProgressEvent) (sb : Subscription)
    (h : list UploadFile) :
  lengthComputable e = true ->
  time (on_progress t e sb h).1.1 = t /\
  load (on_progress t e sb h).1.1 = loaded e - load sb.
Proof.
  intros Hc. unfold on_progress. rewrite Hc. simpl. split; [lia | reflexivity].
Qed.

(** [load] holds the previous difference, not the previous count: after
    a second tick it is the increment only when [load] started at 0, and
    after a third tick it is the increment plus the first count. *)
Lemma load_after_three_ticks (t1 t2 t3 : Z) (e1 e2 e3 : ProgressEvent)
    (sb : Subscription) (h : list UploadFile) :
  lengthComputable e1 = true -> lengthComputable e2 = true ->
  lengthComputable e3 = true -> load sb = 0 ->
  let '(sb1, h1, _) := on_progress t1 e1 sb h in
  let '(sb2, h2, _) := on_progress t2 e2 sb1 h1 in
  let '(sb3, _, _) := on_progress t3 e3 sb2 h2 in
  load sb1 = loaded e1 /\
  load sb2 = loaded e2 - loaded e1 /\
  load sb3 = (loaded e3 - loaded e2) + loaded e1.
Proof.
  intros H1 H2 H3 H0. unfold on_progress. rewrite H1, H2, H3. simpl. lia.
Qed.

(** C2, on the code: ticks at 1000, 2000 and 3000 ms carrying 1000, 2000
    and 3000 bytes.  Every interval moves 1000 bytes in 1000 ms, a rate
    of 1000 bytes per second; the first two ticks report it, the third
    reports 2000. *)
Theorem third_tick_speed_counts_first_tick_again :
  let sb := uploadFile (quiet 0%nat) 1%nat "/upload" None second_started in
  speeds_reported [(1000, 1000); (2000, 2000); (3000, 3000)] 3000 sb
                  (heap second_started)
    = [Some (int 1000); Some (int 1000); Some (int 2000)] /\
  speed_of (3000 - 2000) (3000 - 2000) = int 1000.
Proof. vm_compute. split; reflexivity. Qed.

(** ** Completion and the job table *)






(** ** A closed subscription *)

Lemma notify_sub_file (n : Notification) (sb : Subscription) (h : list UploadFile) :
  sub_file (notify n sb h).1.1 = sub_file sb.
Proof.
  destruct n as [t e | |]; simpl; [| reflexivity | reflexivity].
  unfold on_progress. destruct (lengthComputable e); reflexivity.
Qed.

(** A closed observer stays closed and nothing reaches the output. *)
Lemma notify_closed (n : Notification) (sb : Subscription) (h : list UploadFile) :
  closed sb = true ->
  closed (notify n sb h).1.1 = true /\ (notify n sb h).2 = [].
Proof.
  intros Hc. destruct n as [t e | |]; simpl.
  - unfold on_progress, next. destruct (lengthComputable e); simpl; rewrite Hc; auto.
  - unfold next. rewrite Hc. auto.
  - auto.
Qed.

Lemma drive_closed (ns : list Notification) (sb : Subscription) (h : list UploadFile) :
  closed sb = true -> (drive ns sb h).2 = [].
Proof.
  revert sb h. induction ns as [| n ns IH]; intros sb h Hc; [reflexivity |].
  simpl. destruct (notify_closed n sb h Hc) as [Hc1 Ho1].
  destruct (notify n sb h) as [[sb1 h1] o1]. simpl in Hc1, Ho1.
  specialize (IH sb1 h1 Hc1).
  destruct (drive ns sb1 h1) as [[sb2 h2] o2]. simpl in IH |- *.
  rewrite Ho1, IH. reflexivity.
Qed.

Lemma drive_app (ns ms : list Notification) (sb : Subscription) (h : list UploadFile) :
  drive (ns ++ ms) sb h =
    let '(sb1, h1, o1) := drive ns sb h in
    let '(sb2, h2, o2) := drive ms sb1 h1 in
    (sb2, h2, o1 ++ o2).
Proof.
  revert sb h. induction ns as [| n ns IH]; intros sb h.
  - simpl. destruct (drive ms sb h) as [[sb2 h2] o2]. reflexivity.
  - simpl. destruct (notify n sb h) as [[sb1 h1] o1]. rewrite IH.
    destruct (drive ns sb1 h1) as [[sb2 h2] o2].
    destruct (drive ms sb2 h2) as [[sb3 h3] o3]. rewrite app_assoc. reflexivity.
Qed.

(** Completion and unsubscription close the observer. *)
Lemma notify_closes (n : Notification) (sb : Subscription) (h : list UploadFile) :
  n = Completed \/ n = Unsubscribed -> closed (notify n sb h).1.1 = true.
Proof. intros [-> | ->]; reflexivity. Qed.

Lemma drive_closes (ns : list Notification) (sb : Subscription) (h : list UploadFile) :
  closed sb = true -> closed (drive ns sb h).1.1 = true.
Proof.
  revert sb h. induction ns as [| n ns IH]; intros sb h Hc; [exact Hc |].
  simpl. destruct (notify_closed n sb h Hc) as [Hc1 _].
  destruct (notify n sb h) as [[sb1 h1] o1]. simpl in Hc1.
  specialize (IH sb1 h1 Hc1).
  destruct (drive ns sb1 h1) as [[sb2 h2] o2]. exact IH.
Qed.

(** The events of one subscription: [uploading]s, then at most a [done]. *)
Lemma drive_shape (ns : list Notification) (sb : Subscription) (h : list UploadFile) :
  exists (j : nat) (d : list UploadOutput),
    (drive ns sb h).2 = repeat (output uploading (sub_file sb)) j ++ d /\
    (d = [] \/ d = [output done (sub_file sb)]).
Proof.
  revert sb h. induction ns as [| n ns IH]; intros sb h.
  - exists 0%nat, []. split; [reflexivity | left; reflexivity].
  - destruct (closed sb) eqn:Hc.
    + exists 0%nat, []. split; [apply drive_closed; exact Hc | left; reflexivity].
    + simpl. pose proof (notify_sub_file n sb h) as Hf.
      destruct n as [t e | |]; simpl in Hf |- *.
      * unfold on_progress in Hf |- *. unfold next. rewrite Hc.
        destruct (lengthComputable e); simpl in Hf |- *.
        -- match goal with |- context [drive ns ?sb1 ?h1] =>
             destruct (IH sb1 h1) as (j & d & Hev & Hd);
             destruct (drive ns sb1 h1) as [[sb2 h2] o2] end.
           simpl in Hev |- *. exists (S j), d. rewrite Hev. split; [reflexivity | exact Hd].
        -- destruct (IH sb h) as (j & d & Hev & Hd).
           destruct (drive ns sb h) as [[sb2 h2] o2].
           simpl in Hev |- *. exists j, d. split; [exact Hev | exact Hd].
      * unfold on_load, next. rewrite Hc.
        match goal with |- context [drive ns ?sb1 ?h1] =>
          pose proof (drive_closed ns sb1 h1 eq_refl) as Hq;
          destruct (drive ns sb1 h1) as [[sb2 h2] o2] end.
        simpl in Hq |- *. subst o2.
        exists 0%nat, [output done (sub_file sb)]. split; [reflexivity | right; reflexivity].
      * pose proof (drive_closed ns (close sb) h eq_refl) as Hq.
        destruct (drive ns (close sb) h) as [[sb2 h2] o2].
        simpl in Hq |- *. subst o2.
        exists 0%nat, []. split; [reflexivity | left; reflexivity].
Qed.

(** Nothing is emitted past a completion or an unsubscription. *)
Lemma drive_silent_after (pre post : list Notification) (n : Notification)
    (sb : Subscription) (h : list UploadFile) :
  n = Completed \/ n = Unsubscribed ->
  (drive (pre ++ n :: post) sb h).2 = (drive (pre ++ [n]) sb h).2.
Proof.
  intros Hn. rewrite !drive_app.
  destruct (drive pre sb h) as [[sb1 h1] o1]. simpl.
  pose proof (notify_closes n sb1 h1 Hn) as Hc.
  destruct (notify n sb1 h1) as [[sb2 h2] o2]. simpl in Hc.
  pose proof (drive_closed post sb2 h2 Hc) as Hq.
  destruct (drive post sb2 h2) as [[sb3 h3] o3]. simpl in Hq |- *.
  subst o3. reflexivity.
Qed.

(** ** The progress status *)

Lemma status_of_write_progress (r : ref) (p : UploadProgress) (h : list UploadFile)
    (f : UploadFile) :
  h !! r = Some f ->
  write_progress r p h !! r = Some (set_progress p f).
Proof.
  intros Hf. unfold write_progress. rewrite Hf.
  apply list_lookup_insert_eq. eapply lookup_lt_Some. exact Hf.
Qed.

(** One notification moves the status along [Queue -> Uploading* -> Done]
    or leaves it, unless it is a tick on an entry that is [Done]. *)
Lemma notify_status (n : Notification) (sb : Subscription) (h : list UploadFile)
    (st0 : UploadStatus) :
  status_of h (sub_file sb) = Some st0 ->
  exists st1,
    status_of (notify n sb h).1.2 (sub_file sb) = Some st1 /\
    (transition st0 st1 \/
     (st0 = Done /\ st1 = Uploading /\
      exists t e, n = Tick t e /\ lengthComputable e = true)).
Proof.
  unfold status_of. intros Hst.
  destruct (h !! sub_file sb) as [f |] eqn:Hf; [| discriminate].
  simpl in Hst. injection Hst as Hst.
  destruct n as [t e | |]; simpl.
  - unfold on_progress. destruct (lengthComputable e) eqn:Hc; simpl.
    + rewrite (status_of_write_progress _ _ _ f Hf). simpl.
      exists Uploading. split; [reflexivity |].
      destruct st0; [left; constructor | left; constructor |].
      right. split; [reflexivity |]. split; [reflexivity |].
      exists t, e. split; [reflexivity | exact Hc].
    + rewrite Hf. simpl. exists st0. split; [congruence | left; constructor].
  - rewrite (status_of_write_progress _ _ _ f Hf). simpl.
    exists Done. split; [reflexivity |]. left. destruct st0; constructor.
  - rewrite Hf. simpl. exists st0. split; [congruence | left; constructor].
Qed.

(** C9, as stated, fails: a.txt is uploaded to the end, so its status is
    [Done]; it is started again and the first tick of the second request
    sets the status back to [Uploading] (and announces it). *)
Lemma done_entry_returns_to_uploading :
  let s := fst (run uploaded_once new_service) in
  let again := run [Command quiet (In_uploadAll "/upload" None);
                    Xhr_progress 1%nat 1000 (tick_of 1000)] s in
  status_of (heap s) 0%nat = Some Done /\
  status_of (heap (fst again)) 0%nat = Some Uploading /\
  snd again = [output start 0%nat; output uploading 0%nat].
Proof. vm_compute. repeat split; reflexivity. Qed.

(** C9, amended.  For one subscription, in any state and under any
    sequence of ticks, completions and unsubscriptions:
    - the events emitted are [uploading]s followed by at most one [done];
    - nothing is emitted past a completion or an unsubscription;
    - a completion sets the progress to [Done], 100, [null] speed, closes
      the observer and, on an observer still open, emits exactly [done];
    - each notification leaves the status or moves it along
      [Queue -> Uploading* -> Done], except that a tick with a known total
      on an entry that is already [Done] sets it to [Uploading]. *)
Theorem subscription_events_and_status (sb : Subscription) (h : list UploadFile) :
  (forall ns, exists (j : nat) (d : list UploadOutput),
     (drive ns sb h).2 = repeat (output uploading (sub_file sb)) j ++ d /\
     (d = [] \/ d = [output done (sub_file sb)])) /\
  (forall pre post n, n = Completed \/ n = Unsubscribed ->
     (drive (pre ++ n :: post) sb h).2 = (drive (pre ++ [n]) sb h).2) /\
  (forall f, h !! sub_file sb = Some f ->
     progress <$> (notify Completed sb h).1.2 !! sub_file sb
       = Some {| status := Done;
                 data := Some {| percentage := int 100; speed := None;
                                 speedHuman := None |} |} /\
     closed (notify Completed sb h).1.1 = true /\
     (closed sb = false ->
        (notify Completed sb h).2 = [output done (sub_file sb)])) /\
  (forall n st0, status_of h (sub_file sb) = Some st0 ->
     exists st1,
       status_of (notify n sb h).1.2 (sub_file sb) = Some st1 /\
       (transition st0 st1 \/
        (st0 = Done /\ st1 = Uploading /\
         exists t e, n = Tick t e /\ lengthComputable e = true))).
Proof.
  split; [intros ns; apply drive_shape |].
  split; [intros pre post n Hn; apply drive_silent_after; exact Hn |].
  split; [| intros n st0; apply notify_status].
  intros f Hf. simpl.
  rewrite (status_of_write_progress _ _ _ f Hf). simpl.
  split; [reflexivity |]. split; [reflexivity |].
  intros Hopen. unfold next. rewrite Hopen. reflexivity.
Qed.

(** The amended claim on the request of b.txt: two ticks, the
    completion, and a tick that comes too late. *)
Lemma subscription_events_and_status_witness :
  let sb := uploadFile (quiet 0%nat) 1%nat "/upload" None second_started in
  let h := heap second_started in
  (drive [Tick 1000 (tick_of 1000); Tick 2000 (tick_of 2000); Completed;
          Tick 3000 (tick_of 3000)] sb h).2
    = (drive [Tick 1000 (tick_of 1000); Tick 2000 (tick_of 2000); Completed] sb h).2 /\
  exists st1,
    status_of (notify (Tick 1000 (tick_of 1000)) sb h).1.2 1%nat = Some st1 /\
    (transition Queue st1 \/
     (Queue = Done /\ st1 = Uploading /\
      exists t e, Tick 1000 (tick_of 1000) = Tick t e /\ lengthComputable e = true)).
Proof.
  intros sb h.
  destruct (subscription_events_and_status sb h) as (_ & Hsilent & _ & Hstatus).
  split.
  - exact (Hsilent [Tick 1000 (tick_of 1000); Tick 2000 (tick_of 2000)]
                   [Tick 3000 (tick_of 3000)] Completed (or_introl eq_refl)).
  - exact (Hstatus (Tick 1000 (tick_of 1000)) Queue eq_refl).
Defined.

(** ** The upload commands *)

Lemma rounds_completed_le (env : nat -> Env) (fs : list ref) (i : nat) :
  (rounds_completed env i fs <= length fs)%nat.
Proof.
  revert i. induction fs as [| f fs IH]; intros i; simpl; [lia |].
  destruct (open_throws (env i)); [lia |]. specialize (IH (S i)). lia.
Qed.

(** Every round runs to its end when none throws. *)
Lemma rounds_completed_all (env : nat -> Env) (fs : list ref) (i : nat) :
  (forall j, (j < length fs)%nat -> open_throws (env (i + j)%nat) = false) ->
  rounds_completed env i fs = length fs.
Proof.
  revert i. induction fs as [| f fs IH]; intros i Hall; [reflexivity |].
  simpl. pose proof (Hall 0%nat ltac:(simpl; lia)) as H0.
  rewrite Nat.add_0_r in H0. rewrite H0. f_equal. apply IH.
  intros j Hj. replace (S i + j)%nat with (i + S j)%nat by lia.
  apply Hall. simpl. lia.
Qed.

(** What the rounds of [forEach] add up to: the rounds that run to their
    end leave a job and a subscription each, the round that throws, if
    any, its [start] event only. *)
Lemma start_all_unfold (env : nat -> Env) (fs : list ref) (i : nat) (url : string)
    (method : option string) (s : NgUploaderService) :
  start_all env i fs url method s =
    ({| fileList := fileList s; files := files s;
        uploads := uploads s ++
          imap (fun j f => {| up_file := f; sub := (length (subs s) + j)%nat |})
               (take (rounds_completed env i fs) fs);
        heap := heap s;
        subs := subs s ++
          imap (fun j f => uploadFile (env (i + j)%nat) f url method s)
               (take (rounds_completed env i fs) fs) |},
     output start <$> take (S (rounds_completed env i fs)) fs,
     (rounds_completed env i fs <? length fs)%nat).
Proof.
  revert i s. induction fs as [| f fs IH]; intros i s.
  - destruct s. simpl. rewrite !app_nil_r. reflexivity.
  - cbn [start_all start_upload rounds_completed].
    destruct (open_throws (env i)) eqn:Hopen.
    + destruct s. simpl. rewrite !app_nil_r. reflexivity.
    + rewrite IH. cbn [fileList files uploads heap subs take length].
      rewrite !imap_cons, <- !app_assoc. cbn [app fmap list_fmap].
      rewrite length_app. cbn [length].
      do 3 f_equal.
      * f_equal. rewrite Nat.add_0_r. f_equal. apply imap_ext. intros j x _. simpl.
        f_equal. lia.
      * f_equal. rewrite Nat.add_0_r. f_equal. apply imap_ext. intros j x _. simpl.
        unfold uploadFile. cbn [fileList].
        replace (S (i + j))%nat with (i + S j)%nat by lia. reflexivity.
Qed.

(** ** A closed subscription inside the service *)

Lemma unsubscribe_keeps_closed (handle handle' : nat) (r : list Subscription) :
  (exists sb, r !! handle = Some sb /\ closed sb = true) ->
  exists sb, unsubscribe handle' r !! handle = Some sb /\ closed sb = true.
Proof.
  intros (sb & Hsb & Hc). unfold unsubscribe.
  destruct (decide (handle' = handle)) as [-> | Hne].
  - exists (close sb). rewrite list_lookup_alter_eq, Hsb. split; reflexivity.
  - exists sb. rewrite list_lookup_alter_ne by exact Hne. split; assumption.
Qed.

Lemma start_upload_keeps_closed (env : Env) (file : option ref) (url : string)
    (method : option string) (s : NgUploaderService) (handle : nat) :
  closed_at s handle -> closed_at (start_upload env file url method s).1.1 handle.
Proof.
  intros Hcl. unfold start_upload. destruct file as [f |]; [| exact Hcl].
  destruct (open_throws env); [exact Hcl |].
  destruct Hcl as (sb & Hsb & Hc). exists sb. split; [| exact Hc]. simpl.
  apply lookup_app_l_Some. exact Hsb.
Qed.

Lemma start_all_keeps_closed (env : nat -> Env) (fs : list ref) (i : nat)
    (url : string) (method : option string) (s : NgUploaderService) (handle : nat) :
  closed_at s handle -> closed_at (start_all env i fs url method s).1.1 handle.
Proof.
  intros (sb & Hsb & Hc). rewrite start_all_unfold. exists sb. split; [| exact Hc].
  simpl. apply lookup_app_l_Some. exact Hsb.
Qed.

Lemma cancel_keeps_closed (key : option string) (s : NgUploaderService) (handle : nat) :
  closed_at s handle -> closed_at (after (cancel key s)) handle.
Proof.
  intros Hc. unfold cancel.
  destruct key as [[| c key'] |]; try exact Hc.
  destruct (find_upload s (String c key')) as [[index u] |]; [| exact Hc].
  destruct (fileList s); simpl; apply unsubscribe_keeps_closed; exact Hc.
Qed.

Lemma cancelAll_keeps_closed (s : NgUploaderService) (handle : nat) :
  closed_at s handle -> closed_at (after (cancelAll s)) handle.
Proof.
  intros (sb & Hsb & Hc). unfold closed_at. simpl.
  rewrite unsubscribe_all_lookup, Hsb. simpl.
  case_decide; eexists; (split; [reflexivity |]); [reflexivity | exact Hc].
Qed.

Lemma deliver_keeps_closed (n : Notification) (handle' : nat) (s : NgUploaderService)
    (handle : nat) :
  closed_at s handle -> closed_at (after (deliver handle' (notify n) s)) handle.
Proof.
  intros (sb & Hsb & Hc). unfold deliver.
  destruct (subs s !! handle') as [sb' |] eqn:E; [| exists sb; split; assumption].
  destruct (decide (handle' = handle)) as [-> | Hne].
  - assert (sb' = sb) as -> by congruence.
    destruct (notify_closed n sb (heap s) Hc) as [Hc1 _].
    destruct (notify n sb (heap s)) as [[sb1 h1] o1]. simpl in Hc1.
    cbn [after]. exists sb1. split; [| exact Hc1]. cbn [subs].
    apply list_lookup_insert_eq. eapply lookup_lt_Some. exact Hsb.
  - destruct (notify n sb' (heap s)) as [[sb1 h1] o1]. cbn [after subs].
    exists sb. split; [| exact Hc]. cbn [subs].
    rewrite list_lookup_insert_ne by exact Hne. exact Hsb.
Qed.

(** Whatever happens next, a closed subscription stays closed. *)
Lemma step_keeps_closed (x : Stimulus) (s : NgUploaderService) (handle : nat) :
  closed_at s handle -> closed_at (after (step x s)) handle.
Proof.
  intros Hc. destruct x as [gen fl | env event | handle' t e | handle'].
  - exact Hc.
  - destruct event as [url method | file url method | key |]; cbn [step on_input].
    + pose proof (start_all_keeps_closed env (files s) 0 url method s handle Hc) as H.
      destruct (start_all env 0 (files s) url method s) as [[s' out] t]. exact H.
    + pose proof (start_upload_keeps_closed (env 0%nat) file url method s handle Hc)
        as H.
      destruct (start_upload (env 0%nat) file url method s) as [[s' out] t]. exact H.
    + apply cancel_keeps_closed. exact Hc.
    + apply cancelAll_keeps_closed. exact Hc.
  - exact (deliver_keeps_closed (Tick t e) handle' s handle Hc).
  - exact (deliver_keeps_closed Completed handle' s handle Hc).
Qed.

Lemma run_keeps_closed (xs : list Stimulus) (s : NgUploaderService) (handle : nat) :
  closed_at s handle -> closed_at (run xs s).1 handle.
Proof.
  revert s. induction xs as [| x xs IH]; intros s Hc; [exact Hc |].
  simpl. specialize (IH (after (step x s)) (step_keeps_closed x s handle Hc)).
  destruct (run xs (after (step x s))) as [s' out]. exact IH.
Qed.

(** The notifications of a closed subscription reach no one. *)
Lemma closed_is_silent (x : Stimulus) (s : NgUploaderService) (handle : nat) :
  closed_at s handle -> concerns handle x -> emitted (step x s) = [].
Proof.
  intros (sb & Hsb & Hc) [-> | (t & e & ->)]; simpl; unfold deliver; rewrite Hsb.
  - destruct (notify_closed Completed sb (heap s) Hc) as [_ Ho].
    simpl in Ho |- *. exact Ho.
  - destruct (notify_closed (Tick t e) sb (heap s) Hc) as [_ Ho]. simpl in Ho.
    destruct (on_progress t e sb (heap s)) as [[sb1 h1] o1]. exact Ho.
Qed.

(** C8, as stated, fails: a request whose method the browser refuses.
    [xhr.open] throws before the [try] block; [start] has been emitted,
    the exception leaves the handler and no job is tracked. *)
Lemma open_failure_escapes_the_handler :
  let env := fun _ : nat => {| now := 0; open_throws := true; send_throws := false |} in
  let s := fst (run [Browse ids_ab [a_txt; b_txt]] new_service) in
  let o := step (Command env (In_uploadFile (Some 1%nat) "/upload" (Some "TRACE"%string)))
                s in
  thrown o = true /\
  emitted o = [output start 1%nat] /\
  uploads (after o) = [] /\
  subs (after o) = [].
Proof. vm_compute. repeat split; reflexivity. Qed.

(** C8, amended.  A request whose dispatch throws inside the [try]
    block, because [xhr.send] throws or because [this.fileList] has no
    [item]: the handler emitted [start] before subscribing and nothing
    else is emitted, neither then nor by any later notification of that
    request, whatever happens in between; the observer is closed at once,
    no entry is touched, and the handler of [uploadFile] or [uploadAll]
    does not throw.  A request for which [xhr.open] or
    [xhr.setRequestHeader] throws, before the [try] block: [start] is
    emitted, the exception leaves the handler, and neither job nor
    subscription is added. *)
Theorem send_failure_completes_silently (env : Env) (file : ref) (url : string)
    (method : option string) (s : NgUploaderService) :
  let started := start_upload env (Some file) url method s in
  let handle := length (subs s) in
  (open_throws env = false ->
   send_throws env = true \/ has_item (fileList s) = false ->
     started.1.2 = [output start file] /\
     heap started.1.1 = heap s /\
     closed_at started.1.1 handle /\
     uploads started.1.1 = uploads s ++ [ {| up_file := file; sub := handle |} ] /\
     (forall xs x, concerns handle x -> emitted (step x (run xs started.1.1).1) = []) /\
     step (Command (fun _ => env) (In_uploadFile (Some file) url method)) s
       = {| after := started.1.1; emitted := [output start file]; thrown := false |} /\
     thrown (step (Command (fun _ => env) (In_uploadAll url method)) s) = false) /\
  (open_throws env = true ->
     step (Command (fun _ => env) (In_uploadFile (Some file) url method)) s
       = {| after := s; emitted := [output start file]; thrown := true |} /\
     (files s <> [] ->
        thrown (step (Command (fun _ => env) (In_uploadAll url method)) s) = true /\
        uploads (after (step (Command (fun _ => env) (In_uploadAll url method)) s))
          = uploads s)).
Proof.
  cbn zeta. split.
  - intros Hopen Hthrow. cbn [step on_input]. unfold start_upload. rewrite Hopen.
    cbn [fst snd].
    set (s' := {| fileList := fileList s; files := files s;
                  uploads := uploads s ++ [ {| up_file := file; sub := length (subs s) |} ];
                  heap := heap s;
                  subs := subs s ++ [uploadFile env file url method s] |}).
    assert (Hclosed : closed_at s' (length (subs s))).
    { exists (uploadFile env file url method s). split.
      - simpl. rewrite lookup_app_r by lia. rewrite Nat.sub_diag. reflexivity.
      - simpl. destruct Hthrow as [-> | ->]; [reflexivity |].
        apply orb_true_r. }
    split; [reflexivity |]. split; [reflexivity |]. split; [exact Hclosed |].
    split; [reflexivity |].
    split.
    { intros xs x Hx. apply (closed_is_silent x _ (length (subs s))); [| exact Hx].
      apply run_keeps_closed. exact Hclosed. }
    split; [reflexivity |].
    rewrite start_all_unfold. cbn [thrown].
    rewrite rounds_completed_all by (intros j _; exact Hopen).
    apply Nat.ltb_irrefl.
  - intros Hopen. cbn [step on_input]. unfold start_upload. rewrite Hopen.
    split; [reflexivity |].
    intros Hne. rewrite start_all_unfold. cbn [thrown after uploads].
    destruct (files s) as [| f fs]; [congruence |].
    cbn [rounds_completed]. rewrite Hopen. cbn [take imap length].
    split; [reflexivity | apply app_nil_r].
Qed.

(** The amended claim on b.txt: first when [xhr.send] throws, the
    completion of the request being notified after a new selection of
    files; then when [xhr.open] throws. *)
Lemma send_failure_completes_silently_witness :
  let env := {| now := 0; open_throws := false; send_throws := true |} in
  let env' := {| now := 0; open_throws := true; send_throws := false |} in
  let s := fst (run [Browse ids_ab [a_txt; b_txt]] new_service) in
  let o := step (Command (fun _ => env) (In_uploadFile (Some 1%nat) "/upload" None)) s in
  let o' := step (Command (fun _ => env') (In_uploadFile (Some 1%nat) "/upload" None)) s in
  (emitted o = [output start 1%nat] /\
   thrown o = false /\
   emitted (step (Xhr_load 0%nat) (run [Browse ids_ab [a_txt]] (after o)).1) = []) /\
  (emitted o' = [output start 1%nat] /\ thrown o' = true /\ after o' = s).
Proof.
  intros env env' s o o'. split.
  - destruct (proj1 (send_failure_completes_silently env 1%nat "/upload" None s)
                eq_refl (or_introl eq_refl))
      as (_ & _ & _ & _ & Hsilent & Hstep & _).
    split; [exact (f_equal emitted Hstep) |].
    split; [exact (f_equal thrown Hstep) |].
    exact (Hsilent [Browse ids_ab [a_txt]] (Xhr_load 0%nat) (or_introl eq_refl)).
  - destruct (proj2 (send_failure_completes_silently env' 1%nat "/upload" None s)
                eq_refl) as [Hstep _].
    split; [exact (f_equal emitted Hstep) |].
    split; [exact (f_equal thrown Hstep) | exact (f_equal after Hstep)].
Defined.

(** * Further properties *)

(** ** uploadAll *)

(** X1.  [uploadAll] goes through the registry in order until a round
    throws before its [try] block ([xhr.open] or [xhr.setRequestHeader]):
    each round started emits [start], each round that ran to its end
    (the first n) appended a job with a subscription of its own, and the
    handler throws exactly when a round did.  The registry, the raw file
    list, every entry and the jobs already in the table are left as they
    were.  When no round throws, this is one [start] and one job per
    entry of the registry. *)
Theorem uploadAll_starts_entries_in_order (env : nat -> Env) (url : string)
    (method : option string) (s : NgUploaderService) :
  let o := step (Command env (In_uploadAll url method)) s in
  let n := rounds_completed env 0 (files s) in
  emitted o = output start <$> take (S n) (files s) /\
  uploads (after o) = uploads s ++
    imap (fun j f => {| up_file := f; sub := (length (subs s) + j)%nat |})
         (take n (files s)) /\
  subs (after o) = subs s ++
    imap (fun j f => uploadFile (env j) f url method s) (take n (files s)) /\
  files (after o) = files s /\
  fileList (after o) = fileList s /\
  heap (after o) = heap s /\
  thrown o = (n <? length (files s))%nat /\
  ((forall j, (j < length (files s))%nat -> open_throws (env j) = false) ->
     emitted o = output start <$> files s /\
     uploads (after o) = uploads s ++
       imap (fun j f => {| up_file := f; sub := (length (subs s) + j)%nat |}) (files s) /\
     thrown o = false).
Proof.
  cbn [step on_input]. rewrite start_all_unfold. cbn zeta. cbn [after emitted thrown].
  cbn [uploads subs files fileList heap].
  repeat (split; [reflexivity |]).
  intros Hall. rewrite (rounds_completed_all env (files s) 0 Hall).
  rewrite firstn_all, take_ge by lia. rewrite Nat.ltb_irrefl.
  repeat split; reflexivity.
Qed.

(** The property on a.txt and b.txt: first with no round throwing, then
    with [xhr.open] throwing for b.txt. *)
Lemma uploadAll_starts_entries_in_order_witness :
  let s := after (step (Browse ids_ab [a_txt; b_txt]) new_service) in
  let env := fun j : nat =>
    {| now := 0; open_throws := Nat.eqb j 1; send_throws := false |} in
  (emitted (step (Command quiet (In_uploadAll "/upload" None)) s)
     = [output start 0%nat; output start 1%nat] /\
   thrown (step (Command quiet (In_uploadAll "/upload" None)) s) = false) /\
  (emitted (step (Command env (In_uploadAll "/upload" None)) s)
     = [output start 0%nat; output start 1%nat] /\
   uploads (after (step (Command env (In_uploadAll "/upload" None)) s))
     = [ {| up_file := 0%nat; sub := 0%nat |} ] /\
   thrown (step (Command env (In_uploadAll "/upload" None)) s) = true).
Proof.
  intros s env. split.
  - destruct (uploadAll_starts_entries_in_order quiet "/upload" None s)
      as (_ & _ & _ & _ & _ & _ & _ & H).
    destruct (H ltac:(intros j _; reflexivity)) as (He & _ & Ht).
    split; [exact He | exact Ht].
  - destruct (uploadAll_starts_entries_in_order env "/upload" None s)
      as (He & Hu & _ & _ & _ & _ & Ht & _).
    split; [exact He |]. split; [exact Hu | exact Ht].
Defined.

(** X2.  Selecting files and starting them all, no round throwing
    before its [try] block: the j-th file selected gets the j-th [start]
    event, the j-th new job and a subscription on its own entry, opened
    at the clock of that round with [load] 0; the subscription is open
    exactly when [xhr.send] did not throw. *)
Theorem handleFiles_then_uploadAll (gen : nat -> string) (fl : list File)
    (env : nat -> Env) (url : string) (method : option string)
    (s : NgUploaderService) :
  (forall j, (j < length fl)%nat -> open_throws (env j) = false) ->
  let s1 := after (step (Browse gen fl) s) in
  let o := step (Command env (In_uploadAll url method)) s1 in
  length (emitted o) = length fl /\
  thrown o = false /\
  forall (j : nat) (raw : File), fl !! j = Some raw ->
    let r := (length (heap s) + j)%nat in
    heap (after o) !! r = Some (new_upload_file gen j raw) /\
    emitted o !! j = Some (output start r) /\
    uploads (after o) !! (length (uploads s) + j)%nat
      = Some {| up_file := r; sub := (length (subs s) + j)%nat |} /\
    subs (after o) !! (length (subs s) + j)%nat
      = Some {| sub_file := r; sub_method := default "POST"%string method;
                sub_url := url; time := now (env j); load := 0;
                closed := send_throws (env j) |}.
Proof.
  intros Hall. cbn [step on_input]. rewrite start_all_unfold.
  cbn [after emitted thrown handleFiles fileList files uploads heap subs].
  rewrite rounds_completed_all by (rewrite length_seq; exact Hall).
  rewrite length_seq. rewrite !take_ge by (rewrite length_seq; lia).
  split. { rewrite length_fmap, length_seq. reflexivity. }
  split. { apply Nat.ltb_irrefl. }
  intros j raw Hj. pose proof (lookup_lt_Some _ _ _ Hj) as Hlen.
  assert (Hseq : seq (length (heap s)) (length fl) !! j = Some (length (heap s) + j)%nat)
    by (apply lookup_seq; split; [reflexivity | exact Hlen]).
  split.
  { rewrite lookup_app_r by lia.
    replace (length (heap s) + j - length (heap s))%nat with j by lia.
    rewrite list_lookup_imap, Hj. reflexivity. }
  split. { rewrite list_lookup_fmap. unfold ref. rewrite Hseq. reflexivity. }
  split.
  { rewrite lookup_app_r by lia.
    replace (length (uploads s) + j - length (uploads s))%nat with j by lia.
    rewrite list_lookup_imap. unfold ref. rewrite Hseq. reflexivity. }
  rewrite lookup_app_r by lia.
  replace (length (subs s) + j - length (subs s))%nat with j by lia.
  rewrite list_lookup_imap. unfold ref. rewrite Hseq. simpl. unfold uploadFile. simpl.
  rewrite orb_false_r. reflexivity.
Qed.

(** The property on a.txt and b.txt, [xhr.send] throwing for b.txt. *)
Lemma handleFiles_then_uploadAll_witness :
  let env := fun j : nat =>
    {| now := 5; open_throws := false; send_throws := Nat.eqb j 1 |} in
  let s1 := after (step (Browse ids_ab [a_txt; b_txt]) new_service) in
  let o := step (Command env (In_uploadAll "/upload" None)) s1 in
  emitted o !! 1%nat = Some (output start 1%nat) /\
  subs (after o) !! 1%nat
    = Some {| sub_file := 1%nat; sub_method := "POST"; sub_url := "/upload";
              time := 5; load := 0; closed := true |}.
Proof.
  intros env s1 o.
  destruct (handleFiles_then_uploadAll ids_ab [a_txt; b_txt] env "/upload" None
              new_service ltac:(intros j _; reflexivity)) as (_ & _ & H).
  destruct (H 1%nat b_txt eq_refl) as (_ & He & _ & Hs).
  split; [exact He | exact Hs].
Defined.

(** ** The store of entries *)

Lemma same_metadata_refl (f : UploadFile) : same_metadata f f.
Proof. repeat split. Qed.

Lemma same_metadata_trans (f g h : UploadFile) :
  same_metadata f g -> same_metadata g h -> same_metadata f h.
Proof.
  unfold same_metadata. intros (? & ? & ? & ? & ? & ?) (? & ? & ? & ? & ? & ?).
  repeat split; congruence.
Qed.

(** [file.progress = p] keeps every object, changes none but the one
    behind [r], and that one in its progress only. *)
Lemma write_progress_lookup (r r' : ref) (p : UploadProgress) (h : list UploadFile)
    (f : UploadFile) :
  h !! r' = Some f ->
  exists f', write_progress r p h !! r' = Some f' /\ same_metadata f f' /\
             (r' <> r -> f' = f).
Proof.
  intros Hf. unfold write_progress. destruct (h !! r) as [g |] eqn:E.
  - destruct (decide (r = r')) as [<- | Hne].
    + rewrite list_lookup_insert_eq by (eapply lookup_lt_Some; exact E).
      assert (g = f) as -> by congruence.
      exists (set_progress p f). split; [reflexivity |].
      split; [repeat split | congruence].
    + rewrite list_lookup_insert_ne by exact Hne.
      exists f. split; [exact Hf |]. split; [apply same_metadata_refl | reflexivity].
  - exists f. split; [exact Hf |]. split; [apply same_metadata_refl | reflexivity].
Qed.

Lemma write_progress_length (r : ref) (p : UploadProgress) (h : list UploadFile) :
  length (write_progress r p h) = length h.
Proof.
  unfold write_progress. destruct (h !! r); [apply length_insert | reflexivity].
Qed.

Lemma notify_lookup (n : Notification) (sb : Subscription) (h : list UploadFile)
    (r : ref) (f : UploadFile) :
  h !! r = Some f ->
  exists f', (notify n sb h).1.2 !! r = Some f' /\ same_metadata f f' /\
             (r <> sub_file sb -> f' = f).
Proof.
  intros Hf. destruct n as [t e | |]; simpl.
  - unfold on_progress. destruct (lengthComputable e); simpl.
    + apply write_progress_lookup. exact Hf.
    + exists f. split; [exact Hf |]. split; [apply same_metadata_refl | reflexivity].
  - apply write_progress_lookup. exact Hf.
  - exists f. split; [exact Hf |]. split; [apply same_metadata_refl | reflexivity].
Qed.

Lemma notify_heap_length (n : Notification) (sb : Subscription) (h : list UploadFile) :
  length (notify n sb h).1.2 = length h.
Proof.
  destruct n as [t e | |]; simpl; [| apply write_progress_length | reflexivity].
  unfold on_progress. destruct (lengthComputable e); simpl;
    [apply write_progress_length | reflexivity].
Qed.

(** No command writes to an entry. *)
Lemma on_input_heap (env : nat -> Env) (event : UploadInput) (s : NgUploaderService) :
  heap (after (on_input env event s)) = heap s.
Proof.
  destruct event as [url method | file url method | key |]; cbn [on_input].
  - rewrite start_all_unfold. reflexivity.
  - unfold start_upload. destruct file; [destruct (open_throws _) |]; reflexivity.
  - unfold cancel. destruct key as [[| c key'] |]; try reflexivity.
    destruct (find_upload s (String c key')) as [[index u] |]; [| reflexivity].
    destruct (fileList s); reflexivity.
  - reflexivity.
Qed.

Lemma deliver_lookup (n : Notification) (handle : nat) (s : NgUploaderService)
    (r : ref) (f : UploadFile) :
  heap s !! r = Some f ->
  exists f', heap (after (deliver handle (notify n) s)) !! r = Some f' /\
             same_metadata f f'.
Proof.
  intros Hf. unfold deliver. destruct (subs s !! handle) as [sb |].
  - destruct (notify_lookup n sb (heap s) r f Hf) as (f' & Hf' & Hm & _).
    destruct (notify n sb (heap s)) as [[sb1 h1] o1]. simpl in Hf' |- *.
    exists f'. split; assumption.
  - exists f. split; [exact Hf | apply same_metadata_refl].
Qed.

Lemma step_lookup (x : Stimulus) (s : NgUploaderService) (r : ref) (f : UploadFile) :
  heap s !! r = Some f ->
  exists f', heap (after (step x s)) !! r = Some f' /\ same_metadata f f'.
Proof.
  intros Hf. destruct x as [gen fl | env event | handle t e | handle]; cbn [step].
  - exists f. split; [| apply same_metadata_refl]. simpl.
    apply lookup_app_l_Some. exact Hf.
  - rewrite on_input_heap. exists f. split; [exact Hf | apply same_metadata_refl].
  - exact (deliver_lookup (Tick t e) handle s r f Hf).
  - exact (deliver_lookup Completed handle s r f Hf).
Qed.

(** X3.  Whatever happens to the service, an entry stays in the store
    with the id, fileIndex, name, size, type and lastModifiedDate it had:
    nothing but its progress is ever written.  In particular a [cancel]
    does not renumber the [fileIndex] of the entries that remain. *)
Theorem entry_metadata_is_never_changed (xs : list Stimulus) (s : NgUploaderService)
    (r : ref) (f : UploadFile) :
  heap s !! r = Some f ->
  exists f', heap (run xs s).1 !! r = Some f' /\ same_metadata f f'.
Proof.
  revert s f. induction xs as [| x xs IH]; intros s f Hf.
  - exists f. split; [exact Hf | apply same_metadata_refl].
  - destruct (step_lookup x s r f Hf) as (f1 & Hf1 & Hm1).
    destruct (IH (after (step x s)) f1 Hf1) as (f2 & Hf2 & Hm2).
    cbn [run]. destruct (run xs (after (step x s))) as [s' out].
    exists f2. split; [exact Hf2 | exact (same_metadata_trans _ _ _ Hm1 Hm2)].
Qed.

(** The property on b.txt, ticked once and then left alone in the
    registry by the cancellation of its job. *)
Lemma entry_metadata_is_never_changed_witness :
  exists f',
    heap (run [Xhr_progress 0%nat 1000 (tick_of 1000);
               Command quiet (In_cancel (Some "b"%string))] second_started).1 !! 1%nat
      = Some f' /\
    same_metadata (new_upload_file ids_ab 1 b_txt) f'.
Proof.
  exact (entry_metadata_is_never_changed
           [Xhr_progress 0%nat 1000 (tick_of 1000);
            Command quiet (In_cancel (Some "b"%string))]
           second_started 1%nat (new_upload_file ids_ab 1 b_txt) eq_refl).
Defined.

(** X4.  No command writes to an entry: whatever [uploadFile],
    [uploadAll], [cancel] or [cancelAll] do, every object of the store,
    progress included, is what it was.  The progress of an entry is
    written by the listeners of a request only (a cancelled entry keeps
    the status it had). *)
Theorem commands_leave_entries_alone (env : nat -> Env) (event : UploadInput)
    (s : NgUploaderService) :
  heap (after (step (Command env event) s)) = heap s.
Proof. apply on_input_heap. Qed.

Lemma deliver_frame (n : Notification) (handle : nat)
    (sb : Subscription) (s : NgUploaderService) :
  subs s !! handle = Some sb ->
  let o := deliver handle (notify n) s in
  (forall r, r <> sub_file sb -> heap (after o) !! r = heap s !! r) /\
  length (heap (after o)) = length (heap s) /\
  (forall handle', handle' <> handle -> subs (after o) !! handle' = subs s !! handle') /\
  files (after o) = files s /\
  fileList (after o) = fileList s /\
  uploads (after o) = uploads s /\
  thrown o = false.
Proof.
  intros Hsb. unfold deliver. rewrite Hsb.
  pose proof (notify_heap_length n sb (heap s)) as Hlen.
  assert (Hframe : forall r, r <> sub_file sb ->
            (notify n sb (heap s)).1.2 !! r = heap s !! r).
  { intros r Hr. destruct (heap s !! r) as [f |] eqn:Hf.
    - destruct (notify_lookup n sb (heap s) r f Hf) as (f' & Hf' & _ & Heq).
      rewrite Hf', (Heq Hr). reflexivity.
    - apply lookup_ge_None. rewrite Hlen. apply lookup_ge_None. exact Hf. }
  destruct (notify n sb (heap s)) as [[sb1 h1] o1]. simpl in Hlen, Hframe |- *.
  split; [exact Hframe |]. split; [exact Hlen |].
  split; [| repeat split; reflexivity].
  intros handle' Hne. apply list_lookup_insert_ne. congruence.
Qed.

(** X5.  A notification of one request (a tick or its completion) writes
    to the entry of that request only, changes no subscription but its
    own, and leaves the registry, the raw file list and the job table
    alone; it never throws. *)
Theorem notification_touches_its_own_entry (x : Stimulus) (handle : nat)
    (sb : Subscription) (s : NgUploaderService) :
  concerns handle x ->
  subs s !! handle = Some sb ->
  let o := step x s in
  (forall r, r <> sub_file sb -> heap (after o) !! r = heap s !! r) /\
  length (heap (after o)) = length (heap s) /\
  (forall handle', handle' <> handle -> subs (after o) !! handle' = subs s !! handle') /\
  files (after o) = files s /\
  fileList (after o) = fileList s /\
  uploads (after o) = uploads s /\
  thrown o = false.
Proof.
  intros [-> | (t & e & ->)] Hsb.
  - exact (deliver_frame Completed handle sb s Hsb).
  - exact (deliver_frame (Tick t e) handle sb s Hsb).
Qed.

(** The property on the completion of the request of b.txt: a.txt is
    not touched. *)
Lemma notification_touches_its_own_entry_witness :
  heap (after (step (Xhr_load 0%nat) second_started)) !! 0%nat
    = heap second_started !! 0%nat.
Proof.
  destruct (notification_touches_its_own_entry (Xhr_load 0%nat) 0%nat
              (uploadFile (quiet 0%nat) 1%nat "/upload" None
                 (after (step (Browse ids_ab [a_txt; b_txt]) new_service)))
              second_started (or_introl eq_refl) eq_refl) as [H _].
  exact (H 0%nat ltac:(discriminate)).
Defined.

(** ** The registry and the raw file list *)

Lemma built_from_same_metadata (f f' : UploadFile) (raw : File) :
  same_metadata f f' -> built_from f raw -> built_from f' raw.
Proof.
  unfold same_metadata, built_from.
  intros (_ & _ & Hn & Hs & Ht & Hd) (Hn' & Hs' & Ht' & Hd').
  repeat split; congruence.
Qed.

(** [aligned] reads the registry, the raw file list and the store. *)
Lemma aligned_same (s s' : NgUploaderService) :
  files s' = files s -> fileList s' = fileList s ->
  (forall r f, heap s !! r = Some f ->
     exists f', heap s' !! r = Some f' /\ same_metadata f f') ->
  aligned s -> aligned s'.
Proof.
  unfold aligned. intros -> -> Hheap Hal.
  eapply Forall2_impl; [exact Hal |].
  intros r raw (f & Hf & Hb). destruct (Hheap r f Hf) as (f' & Hf' & Hm).
  exists f'. split; [exact Hf' | exact (built_from_same_metadata f f' raw Hm Hb)].
Qed.

Lemma handleFiles_aligned (gen : nat -> string) (fl : list File) (s : NgUploaderService) :
  aligned (after (handleFiles gen fl s)).
Proof.
  unfold aligned. simpl. apply Forall2_same_length_lookup_2; [apply length_seq |].
  intros i r raw Hr Hraw. apply lookup_seq in Hr. destruct Hr as [-> Hlt].
  exists (new_upload_file gen i raw). split; [| repeat split].
  rewrite lookup_app_r by lia.
  replace (length (heap s) + i - length (heap s))%nat with i by lia.
  rewrite list_lookup_imap, Hraw. reflexivity.
Qed.

Lemma cancel_aligned (key : option string) (s : NgUploaderService) :
  aligned s -> aligned (after (cancel key s)).
Proof.
  intros Hal. unfold cancel.
  destruct key as [[| c key'] |]; try exact Hal.
  destruct (find_upload s (String c key')) as [[index u] |]; [| exact Hal].
  unfold aligned in Hal |- *.
  destruct (fileList s) as [l | l |]; simpl in Hal |- *; [| | exact Hal];
    pose proof (filter_index_delete index 0 l) as Hf; simpl in Hf; rewrite Hf;
    apply Forall2_delete; exact Hal.
Qed.

Lemma step_aligned (x : Stimulus) (s : NgUploaderService) :
  aligned s -> aligned (after (step x s)).
Proof.
  intros Hal. destruct x as [gen fl | env event | handle t e | handle]; cbn [step].
  - apply handleFiles_aligned.
  - destruct event as [url method | file url method | key |]; cbn [on_input].
    + rewrite start_all_unfold. exact Hal.
    + unfold start_upload. destruct file; [destruct (open_throws _) |]; exact Hal.
    + apply cancel_aligned. exact Hal.
    + constructor.
  - apply (aligned_same s); [| | | exact Hal].
    + unfold deliver. destruct (subs s !! handle); [| reflexivity].
      destruct (on_progress t e _ _) as [[? ?] ?]. reflexivity.
    + unfold deliver. destruct (subs s !! handle); [| reflexivity].
      destruct (on_progress t e _ _) as [[? ?] ?]. reflexivity.
    + intros r f. exact (deliver_lookup (Tick t e) handle s r f).
  - apply (aligned_same s); [| | | exact Hal].
    + unfold deliver. destruct (subs s !! handle); reflexivity.
    + unfold deliver. destruct (subs s !! handle); reflexivity.
    + intros r f. exact (deliver_lookup Completed handle s r f).
Qed.

Lemma run_aligned (xs : list Stimulus) (s : NgUploaderService) :
  aligned s -> aligned (run xs s).1.
Proof.
  revert s. induction xs as [| x xs IH]; intros s Hal; [exact Hal |].
  cbn [run]. specialize (IH _ (step_aligned x s Hal)).
  destruct (run xs (after (step x s))) as [s' out]. exact IH.
Qed.

Lemma step_indexed (x : Stimulus) (s : NgUploaderService) :
  indexed s -> indexed (after (step x s)).
Proof.
  intros Hix. destruct x as [gen fl | env event | handle t e | handle]; cbn [step].
  - intros _ i r Hr. simpl in Hr |- *. apply lookup_seq in Hr. destruct Hr as [-> Hlt].
    destruct (lookup_lt_is_Some_2 fl i Hlt) as [raw Hraw].
    exists (new_upload_file gen i raw). split; [| reflexivity].
    rewrite lookup_app_r by lia.
    replace (length (heap s) + i - length (heap s))%nat with i by lia.
    rewrite list_lookup_imap, Hraw. reflexivity.
  - destruct event as [url method | file url method | key |]; cbn [on_input].
    + rewrite start_all_unfold. exact Hix.
    + unfold start_upload. destruct file; [destruct (open_throws _) |]; exact Hix.
    + unfold cancel. destruct key as [[| c key'] |]; try exact Hix.
      destruct (find_upload s (String c key')) as [[index u] |]; [| exact Hix].
      destruct (fileList s); intros Hitem; discriminate Hitem.
    + intros Hitem. discriminate Hitem.
  - unfold deliver. destruct (subs s !! handle) as [sb |]; [| exact Hix].
    pose proof (fun r f => notify_lookup (Tick t e) sb (heap s) r f) as Hl.
    simpl in Hl. destruct (on_progress t e sb (heap s)) as [[sb1 h1] o1].
    intros Hitem i r Hr. destruct (Hix Hitem i r Hr) as (f & Hf & Hi).
    destruct (Hl r f Hf) as (f' & Hf' & Hm & _).
    exists f'. split; [exact Hf' |]. destruct Hm as (_ & Hm & _). congruence.
  - unfold deliver. destruct (subs s !! handle) as [sb |]; [| exact Hix].
    pose proof (fun r f => notify_lookup Completed sb (heap s) r f) as Hl.
    simpl in Hl.
    intros Hitem i r Hr. destruct (Hix Hitem i r Hr) as (f & Hf & Hi).
    destruct (Hl r f Hf) as (f' & Hf' & Hm & _).
    exists f'. split; [exact Hf' |]. destruct Hm as (_ & Hm & _). congruence.
Qed.

Lemma run_indexed (xs : list Stimulus) (s : NgUploaderService) :
  indexed s -> indexed (run xs s).1.
Proof.
  revert s. induction xs as [| x xs IH]; intros s Hix; [exact Hix |].
  cbn [run]. specialize (IH _ (step_indexed x s Hix)).
  destruct (run xs (after (step x s))) as [s' out]. exact IH.
Qed.

(** X6.  In every state the service reaches, the registry and the raw
    file list have the same length and the entry at a position is the
    one built from the raw file at that position: [cancel] cuts both
    lists at the same place, whichever place that is. *)
Theorem registry_and_raw_files_stay_aligned (xs : list Stimulus) :
  let s := (run xs new_service).1 in
  length (files s) = length (raw_files (fileList s)) /\
  forall (i : nat) (r : ref), files s !! i = Some r ->
    exists raw f,
      raw_files (fileList s) !! i = Some raw /\
      heap s !! r = Some f /\
      built_from f raw.
Proof.
  assert (Hal : aligned (run xs new_service).1)
    by (apply run_aligned; constructor).
  simpl. split; [exact (Forall2_length _ _ _ Hal) |].
  intros i r Hr.
  destruct (Forall2_lookup_l _ _ _ i r Hal Hr) as (raw & Hraw & f & Hf & Hb).
  exists raw, f. split; [exact Hraw |]. split; [exact Hf | exact Hb].
Qed.

(** The property after a selection of two files, the start of b.txt and
    the cancellation of its job. *)
Lemma registry_and_raw_files_stay_aligned_witness :
  exists raw f,
    raw_files (fileList (after (step (Command quiet (In_cancel (Some "b"%string)))
                                     second_started))) !! 0%nat = Some raw /\
    heap (after (step (Command quiet (In_cancel (Some "b"%string)))
                      second_started)) !! 1%nat = Some f /\
    built_from f raw.
Proof.
  exact (proj2 (registry_and_raw_files_stay_aligned
                  [Browse ids_ab [a_txt; b_txt];
                   Command quiet (In_uploadFile (Some 1%nat) "/upload" None);
                   Command quiet (In_cancel (Some "b"%string))])
               0%nat 1%nat eq_refl).
Defined.

(** X7.  In every state the service reaches in which [this.fileList] is
    still the [FileList] of the last selection, the body [xhr.send] gets
    for an entry of the registry is the raw file the entry was built
    from. *)
Theorem registry_entry_sends_its_own_file (xs : list Stimulus) (l : list File)
    (i : nat) (r : ref) :
  let s := (run xs new_service).1 in
  fileList s = FileListObj l ->
  files s !! i = Some r ->
  exists raw f,
    l !! i = Some raw /\
    heap s !! r = Some f /\
    built_from f raw /\
    send_argument s r = Some (Some raw).
Proof.
  intros s Hl Hr.
  assert (Hal : aligned s) by (apply run_aligned; constructor).
  assert (Hix : indexed s).
  { apply run_indexed. intros Hitem. discriminate Hitem. }
  destruct (Forall2_lookup_l _ _ _ i r Hal Hr) as (raw & Hraw & f & Hf & Hb).
  rewrite Hl in Hraw. simpl in Hraw.
  destruct (Hix ltac:(rewrite Hl; reflexivity) i r Hr) as (f0 & Hf0 & Hi).
  assert (f0 = f) as -> by congruence.
  exists raw, f. split; [exact Hraw |]. split; [exact Hf |]. split; [exact Hb |].
  unfold send_argument. rewrite Hl, Hf, Hi, Hraw. reflexivity.
Qed.

(** The property on b.txt after a.txt was uploaded to the end. *)
Lemma registry_entry_sends_its_own_file_witness :
  let xs := [Browse ids_ab [a_txt; b_txt];
             Command quiet (In_uploadAll "/upload" None); Xhr_load 0%nat] in
  exists raw f,
    [a_txt; b_txt] !! 1%nat = Some raw /\
    heap (run xs new_service).1 !! 1%nat = Some f /\
    built_from f raw /\
    send_argument (run xs new_service).1 1%nat = Some (Some raw).
Proof.
  exact (registry_entry_sends_its_own_file
           [Browse ids_ab [a_txt; b_txt];
            Command quiet (In_uploadAll "/upload" None); Xhr_load 0%nat]
           [a_txt; b_txt] 1%nat 1%nat eq_refl eq_refl).
Defined.

(** ** Without a [FileList] *)

(** Every subscription from [n] on is closed. *)
Lemma closed_from_app (n : nat) (r new : list Subscription) :
  (forall handle sb, (n <= handle)%nat -> r !! handle = Some sb -> closed sb = true) ->
  Forall (fun sb => closed sb = true) new ->
  forall handle sb, (n <= handle)%nat -> (r ++ new) !! handle = Some sb ->
    closed sb = true.
Proof.
  intros Hold Hnew handle sb Hn Hsb. apply lookup_app_Some in Hsb.
  destruct Hsb as [Hsb | [_ Hsb]]; [exact (Hold handle sb Hn Hsb) |].
  rewrite Forall_lookup in Hnew. exact (Hnew _ _ Hsb).
Qed.

Lemma unsubscribe_closed_from (n handle' : nat) (r : list Subscription) :
  (forall handle sb, (n <= handle)%nat -> r !! handle = Some sb -> closed sb = true) ->
  forall handle sb, (n <= handle)%nat -> unsubscribe handle' r !! handle = Some sb ->
    closed sb = true.
Proof.
  intros Hold handle sb Hn Hsb. unfold unsubscribe in Hsb.
  destruct (decide (handle' = handle)) as [-> | Hne].
  - rewrite list_lookup_alter_eq in Hsb.
    destruct (r !! handle); [| discriminate]. injection Hsb as <-. reflexivity.
  - rewrite list_lookup_alter_ne in Hsb by exact Hne. exact (Hold handle sb Hn Hsb).
Qed.

Lemma deliver_closed_from (n0 : nat) (n : Notification) (handle' : nat)
    (s : NgUploaderService) :
  (forall handle sb, (n0 <= handle)%nat -> subs s !! handle = Some sb ->
     closed sb = true) ->
  forall handle sb, (n0 <= handle)%nat ->
    subs (after (deliver handle' (notify n) s)) !! handle = Some sb -> closed sb = true.
Proof.
  intros Hold handle sb Hn. unfold deliver.
  destruct (subs s !! handle') as [sb' |] eqn:E; [| exact (Hold handle sb Hn)].
  pose proof (fun Hc => proj1 (notify_closed n sb' (heap s) Hc)) as Hkeep.
  destruct (notify n sb' (heap s)) as [[sb1 h1] o1]. cbn [after subs].
  simpl in Hkeep. intros Hsb.
  destruct (decide (handle' = handle)) as [-> | Hne].
  - rewrite list_lookup_insert_eq in Hsb by (eapply lookup_lt_Some; exact E).
    injection Hsb as <-. apply Hkeep. exact (Hold handle sb' Hn E).
  - rewrite list_lookup_insert_ne in Hsb by exact Hne. exact (Hold handle sb Hn Hsb).
Qed.

(** Short of a new selection, a state without a [FileList] stays so and
    only gains closed subscriptions. *)
Lemma step_without_FileList (n0 : nat) (x : Stimulus) (s : NgUploaderService) :
  is_Browse x = false ->
  has_item (fileList s) = false ->
  (forall handle sb, (n0 <= handle)%nat -> subs s !! handle = Some sb ->
     closed sb = true) ->
  has_item (fileList (after (step x s))) = false /\
  forall handle sb, (n0 <= handle)%nat ->
    subs (after (step x s)) !! handle = Some sb -> closed sb = true.
Proof.
  intros Hx Hitem Hold.
  destruct x as [gen fl | env event | handle' t e | handle']; [discriminate | | |];
    cbn [step].
  - destruct event as [url method | file url method | key |]; cbn [on_input].
    + rewrite start_all_unfold. cbn [after fileList subs]. split; [exact Hitem |].
      apply closed_from_app; [exact Hold |].
      apply Forall_lookup. intros j sb Hsb. rewrite list_lookup_imap in Hsb.
      destruct (take _ (files s) !! j); [| discriminate]. injection Hsb as <-.
      simpl. rewrite Hitem. apply orb_true_r.
    + unfold start_upload.
      destruct file as [f |]; [destruct (open_throws _) |];
        cbn [after fileList subs]; try (split; assumption).
      split; [exact Hitem |].
      apply closed_from_app; [exact Hold |].
      repeat constructor. simpl. rewrite Hitem. apply orb_true_r.
    + unfold cancel. destruct key as [[| c key'] |]; try (split; assumption).
      destruct (find_upload s (String c key')) as [[index u] |]; [| split; assumption].
      destruct (fileList s); cbn [after fileList subs];
        (split; [reflexivity | apply unsubscribe_closed_from; exact Hold]).
    + cbn [cancelAll after fileList subs]. split; [reflexivity |].
      intros handle sb Hn Hsb. rewrite unsubscribe_all_lookup in Hsb.
      destruct (subs s !! handle) as [sb0 |] eqn:E; [| discriminate].
      simpl in Hsb. injection Hsb as <-.
      case_decide; [reflexivity | exact (Hold handle sb0 Hn E)].
  - split.
    + unfold deliver. destruct (subs s !! handle'); [| exact Hitem].
      destruct (on_progress t e _ _) as [[? ?] ?]. exact Hitem.
    + exact (deliver_closed_from n0 (Tick t e) handle' s Hold).
  - split.
    + unfold deliver. destruct (subs s !! handle'); exact Hitem.
    + exact (deliver_closed_from n0 Completed handle' s Hold).
Qed.

(** X8.  Where there is no [FileList] - before the first selection, after
    [cancelAll], and after any [cancel] that found a job, which leaves a
    plain array - no upload started before the next selection ever runs:
    every subscription created in between is completed at once (its
    [xhr.send] argument cannot be evaluated), whatever else happens. *)
Theorem no_upload_runs_until_next_selection :
  has_item (fileList new_service) = false /\
  (forall s, has_item (fileList (after (cancelAll s))) = false) /\
  (forall s key index u, key <> ""%string -> find_upload s key = Some (index, u) ->
     has_item (fileList (after (cancel (Some key) s))) = false) /\
  (forall s xs, has_item (fileList s) = false ->
     forallb (fun x => negb (is_Browse x)) xs = true ->
     has_item (fileList (run xs s).1) = false /\
     forall handle sb, (length (subs s) <= handle)%nat ->
       subs (run xs s).1 !! handle = Some sb -> closed sb = true).
Proof.
  split; [reflexivity |]. split; [reflexivity |]. split.
  { intros s key index u Hkey Hfind. unfold cancel. rewrite Hfind.
    destruct key; [congruence |]. destruct (fileList s); reflexivity. }
  intros s xs Hitem Hxs.
  assert (Hold : forall handle sb, (length (subs s) <= handle)%nat ->
            subs s !! handle = Some sb -> closed sb = true).
  { intros handle sb Hn Hsb. apply lookup_lt_Some in Hsb. lia. }
  revert Hitem Hold. generalize (length (subs s)) as n0.
  revert s. induction xs as [| x xs IH]; intros s n0 Hitem Hold.
  - split; assumption.
  - cbn [forallb] in Hxs. apply andb_prop in Hxs. destruct Hxs as [Hx Hxs].
    apply negb_true_iff in Hx.
    destruct (step_without_FileList n0 x s Hx Hitem Hold) as [Hitem1 Hold1].
    specialize (IH Hxs (after (step x s)) n0 Hitem1 Hold1).
    cbn [run]. destruct (run xs (after (step x s))) as [s' out]. exact IH.
Qed.

(** The property after the cancellation of b.txt: a.txt, started next,
    is completed at once. *)
Lemma no_upload_runs_until_next_selection_witness :
  exists sb,
    subs (run [Command quiet (In_uploadFile (Some 0%nat) "/upload" None)]
              (after (cancel (Some "b"%string) second_started))).1 !! 1%nat
      = Some sb /\
    closed sb = true.
Proof.
  eexists. split; [reflexivity |].
  destruct no_upload_runs_until_next_selection as (_ & _ & Hc & Hrun).
  refine (proj2 (Hrun (after (cancel (Some "b"%string) second_started))
                   [Command quiet (In_uploadFile (Some 0%nat) "/upload" None)]
                   (Hc second_started "b"%string 0%nat
                       {| up_file := 1%nat; sub := 0%nat |} ltac:(discriminate) eq_refl)
                   eq_refl)
                1%nat _ (le_n 1) eq_refl).
Defined.

(** ** What a cancel removes *)

(** X9.  A [cancel] that finds a job removes one job and no more: the
    first of the table bearing the id.  The number of jobs bearing the id
    drops by one (an entry started twice needs two cancels), only the
    subscription of the job removed is unsubscribed, and no entry is
    written to. *)
Theorem cancel_removes_one_job (key : string) (index : nat) (u : Upload)
    (s : NgUploaderService) :
  key <> ""%string ->
  find_upload s key = Some (index, u) ->
  let o := cancel (Some key) s in
  uploads s !! index = Some u /\
  (forall j u', uploads s !! j = Some u' -> (j < index)%nat ->
     id <$> heap s !! up_file u' <> Some key) /\
  emitted o = [output cancelled (up_file u)] /\
  uploads (after o) = delete index (uploads s) /\
  S (length (uploads (after o))) = length (uploads s) /\
  S (length (filter (has_id (heap s) key) (uploads (after o))))
    = length (filter (has_id (heap s) key) (uploads s)) /\
  subs (after o) !! sub u = close <$> subs s !! sub u /\
  (forall handle, handle <> sub u -> subs (after o) !! handle = subs s !! handle) /\
  heap (after o) = heap s.
Proof.
  intros Hkey Hfind. pose proof Hfind as Hf.
  unfold find_upload in Hf. apply list_find_Some in Hf.
  destruct Hf as (Hu & Hid & Hfirst).
  assert (E : exists fl' fs' th,
    cancel (Some key) s =
      {| after := {| fileList := fl'; files := fs'; uploads := delete index (uploads s);
                     heap := heap s; subs := unsubscribe (sub u) (subs s) |};
         emitted := [output cancelled (up_file u)]; thrown := th |}).
  { unfold cancel. rewrite Hfind. destruct key; [congruence |].
    destruct (fileList s); eexists _, _, _; reflexivity. }
  destruct E as (fl' & fs' & th & ->). cbn [after emitted uploads subs heap].
  split; [exact Hu |]. split; [exact Hfirst |]. split; [reflexivity |].
  split; [reflexivity |]. split.
  { rewrite length_delete by (rewrite Hu; eauto).
    apply lookup_lt_Some in Hu. lia. }
  split.
  { rewrite delete_take_drop. rewrite <- (take_drop_middle (uploads s) index u Hu) at 3.
    rewrite !filter_app, filter_cons_True by exact Hid.
    rewrite !length_app. simpl. lia. }
  split; [apply list_lookup_alter_eq |]. split; [| reflexivity].
  intros handle Hne. apply list_lookup_alter_ne. congruence.
Qed.

(** The property on an entry started twice: after one cancel a job for
    it is left. *)
Lemma cancel_removes_one_job_witness :
  let s := after (step (Command quiet (In_uploadFile (Some 1%nat) "/upload" None))
                       second_started) in
  S (length (filter (has_id (heap s) "b") (uploads (after (cancel (Some "b"%string) s)))))
    = length (filter (has_id (heap s) "b") (uploads s)).
Proof.
  intros s.
  destruct (cancel_removes_one_job "b" 0%nat {| up_file := 1%nat; sub := 0%nat |} s
              ltac:(discriminate) eq_refl) as (_ & _ & _ & _ & _ & H & _).
  exact H.
Defined.

(** X10.  After [cancelAll] there is no raw file list.  An entry the
    consumer still holds can be started (provided [xhr.open] and
    [xhr.setRequestHeader] accept the request), and the [cancel] of its
    job then emits [cancelled], removes the job and throws on the raw
    file list before reaching the registry. *)
Theorem cancel_after_cancelAll_throws (env env' : nat -> Env) (file : ref)
    (url : string) (method : option string) (f : UploadFile)
    (s : NgUploaderService) :
  heap s !! file = Some f ->
  id f <> ""%string ->
  open_throws (env 0%nat) = false ->
  let s1 := after (step (Command env In_cancelAll) s) in
  let o2 := step (Command env (In_uploadFile (Some file) url method)) s1 in
  let o3 := step (Command env' (In_cancel (Some (id f)))) (after o2) in
  emitted o2 = [output start file] /\
  thrown o2 = false /\
  uploads (after o2) = [ {| up_file := file; sub := length (subs s) |} ] /\
  emitted o3 = [output cancelled file] /\
  thrown o3 = true /\
  uploads (after o3) = [] /\
  files (after o3) = files (after o2) /\
  fileList (after o3) = NoFileList.
Proof.
  intros Hf Hid Hopen. cbn [step on_input cancelAll after]. unfold start_upload.
  rewrite Hopen.
  cbn [after emitted thrown uploads fileList files heap subs app].
  assert (Hlen : length (foldl (fun r u => unsubscribe (sub u) r) (subs s) (uploads s))
                 = length (subs s)).
  { generalize (subs s). induction (uploads s) as [| u us IH]; intros r; [reflexivity |].
    cbn [foldl]. rewrite IH. unfold unsubscribe. apply length_alter. }
  rewrite Hlen. split; [reflexivity |]. split; [reflexivity |]. split; [reflexivity |].
  unfold cancel, find_upload. cbn [heap uploads list_find].
  rewrite decide_True by (unfold has_id; cbn [up_file]; rewrite Hf; reflexivity).
  cbn [fmap option_fmap option_map prod_map fst snd].
  destruct (id f) as [| c key'] eqn:E; [congruence |].
  cbn [fileList after emitted thrown uploads files up_file delete list_delete].
  repeat split; reflexivity.
Qed.

(** The property on b.txt, held from the selection that [cancelAll]
    dropped. *)
Lemma cancel_after_cancelAll_throws_witness :
  let s1 := after (step (Command quiet In_cancelAll) second_started) in
  let o2 := step (Command quiet (In_uploadFile (Some 1%nat) "/upload" None)) s1 in
  let o3 := step (Command quiet (In_cancel (Some "b"%string))) (after o2) in
  emitted o3 = [output cancelled 1%nat] /\ thrown o3 = true.
Proof.
  destruct (cancel_after_cancelAll_throws quiet quiet 1%nat "/upload" None
              (new_upload_file ids_ab 1 b_txt) second_started eq_refl
              ltac:(discriminate) eq_refl) as (_ & _ & _ & He & Ht & _).
  split; [exact He | exact Ht].
Defined.

(** ** The numbers of a tick *)

(** The two quotients are taken in doubles. *)
Example percentage_rounds_the_double_quotient :
  Math_round (num_div (num_mul (int 47147058599060) (int 100)) (int 140737488355403))
    = int 34.
Proof. vm_compute. reflexivity. Qed.

Example speed_of_323_bytes_in_5_ms : speed_of 323 5 = int 64599.
Proof. vm_compute. reflexivity. Qed.

Lemma speed_of_zero_elapsed (l : Z) : speed_of l 0 = NaN.
Proof.
  unfold speed_of. change (int 0) with (S754_zero false).
  destruct (int l) as [s | s | | s m e]; reflexivity.
Qed.

(** A division by zero has no finite result. *)
Lemma percentage_total_zero (l : Z) :
  isFinite (Math_round (num_div (num_mul (int l) (int 100)) (int 0))) = false.
Proof.
  change (int 0) with (S754_zero false).
  destruct (num_mul (int l) (int 100)) as [s | s | | s m e]; reflexivity.
Qed.

(** What a tick with a known total writes to a live entry. *)
Lemma progress_tick_writes (handle : nat) (t : Z) (e : ProgressEvent)
    (sb : Subscription) (f : UploadFile) (s : NgUploaderService) :
  subs s !! handle = Some sb ->
  heap s !! sub_file sb = Some f ->
  lengthComputable e = true ->
  heap (after (step (Xhr_progress handle t e) s)) !! sub_file sb =
    Some (set_progress
            {| status := Uploading;
               data := Some
                 {| percentage :=
                      Math_round (num_div (num_mul (int (loaded e)) (int 100))
                                          (int (total e)));
                    speed := Some (speed_of (loaded e - load sb) (t - time sb));
                    speedHuman :=
                      Some (humanizeBytes (speed_of (loaded e - load sb) (t - time sb))
                              +:+ "/s") |} |} f).
Proof.
  intros Hsb Hf Hc. cbn [step]. unfold deliver. rewrite Hsb.
  unfold on_progress. rewrite Hc. cbn [after heap].
  apply status_of_write_progress. exact Hf.
Qed.

(** X11.  A tick with a known total of 0: the percentage written is the
    rounding of a division by zero, which is no finite number ([NaN] or
    an infinity), and [NaN] when nothing is loaded. *)
Theorem percentage_of_a_tick_with_total_zero (handle : nat) (t : Z)
    (e : ProgressEvent) (sb : Subscription) (f : UploadFile)
    (s : NgUploaderService) :
  subs s !! handle = Some sb ->
  heap s !! sub_file sb = Some f ->
  lengthComputable e = true ->
  total e = 0 ->
  let h' := heap (after (step (Xhr_progress handle t e) s)) in
  exists p, percentage_at h' (sub_file sb) = Some p /\
    isFinite p = false /\
    (loaded e = 0 -> p = NaN).
Proof.
  intros Hsb Hf Hc Ht h'. unfold h', percentage_at.
  rewrite (progress_tick_writes handle t e sb f s Hsb Hf Hc).
  cbn [set_progress progress data percentage]. rewrite Ht.
  eexists. split; [reflexivity |].
  split; [apply percentage_total_zero |].
  intros ->. reflexivity.
Qed.

(** The property on a tick that reports nothing loaded of nothing. *)
Lemma percentage_of_a_tick_with_total_zero_witness :
  exists p,
    percentage_at
      (heap (after (step (Xhr_progress 0%nat 1000
                            {| lengthComputable := true; loaded := 0; total := 0 |})
                         second_started))) 1%nat = Some p /\
    p = NaN.
Proof.
  destruct (percentage_of_a_tick_with_total_zero 0%nat 1000
              {| lengthComputable := true; loaded := 0; total := 0 |}
              (uploadFile (quiet 0%nat) 1%nat "/upload" None
                 (after (step (Browse ids_ab [a_txt; b_txt]) new_service)))
              (new_upload_file ids_ab 1 b_txt) second_started
              eq_refl eq_refl eq_refl eq_refl) as (p & Hp & _ & Hnan).
  exists p. split; [exact Hp | exact (Hnan eq_refl)].
Defined.

(** X12.  A tick in the very millisecond of the previous one (or of the
    subscription): the elapsed time is 0, the speed written is [NaN]
    whatever was loaded, and its display is "NaN undefined/s". *)
Theorem tick_without_elapsed_time (handle : nat) (e : ProgressEvent)
    (sb : Subscription) (f : UploadFile) (s : NgUploaderService) :
  subs s !! handle = Some sb ->
  heap s !! sub_file sb = Some f ->
  lengthComputable e = true ->
  let h' := heap (after (step (Xhr_progress handle (time sb) e) s)) in
  speed_at h' (sub_file sb) = Some NaN /\
  speedHuman_at h' (sub_file sb) = Some "NaN undefined/s"%string.
Proof.
  intros Hsb Hf Hc h'. unfold h', speed_at, speedHuman_at.
  rewrite (progress_tick_writes handle (time sb) e sb f s Hsb Hf Hc).
  cbn [set_progress progress data speed speedHuman].
  rewrite Z.sub_diag, speed_of_zero_elapsed. split; [reflexivity |].
  vm_compute. reflexivity.
Qed.

(** The property on a tick at clock 0 of a request subscribed at 0. *)
Lemma tick_without_elapsed_time_witness :
  speedHuman_at (heap (after (step (Xhr_progress 0%nat 0 (tick_of 1000))
                                   second_started))) 1%nat
    = Some "NaN undefined/s"%string.
Proof.
  exact (proj2 (tick_without_elapsed_time 0%nat (tick_of 1000)
                  (uploadFile (quiet 0%nat) 1%nat "/upload" None
                     (after (step (Browse ids_ab [a_txt; b_txt]) new_service)))
                  (new_upload_file ids_ab 1 b_txt) second_started
                  eq_refl eq_refl eq_refl)).
Defined.

Lemma speed_at_written (r : ref) (p : UploadProgress) (h : list UploadFile)
    (f : UploadFile) :
  h !! r = Some f ->
  speed_at (write_progress r p h) r =
    match data p with
    | Some d => speed d
    | None => None
    end.
Proof.
  intros Hf. unfold speed_at. rewrite (status_of_write_progress r p h f Hf). reflexivity.
Qed.

(** X13.  The first two ticks of a request report the rate of their own
    interval: the speed is [parseInt(load / diff * 1000)] with [load] the
    bytes since the previous tick (since the start for the first) and
    [diff] the milliseconds since the previous tick (since the
    subscription for the first). *)
Theorem first_two_ticks_report_interval_rate (t1 t2 l1 l2 tot : Z)
    (sb : Subscription) (h : list UploadFile) (f : UploadFile) :
  h !! sub_file sb = Some f ->
  load sb = 0 ->
  speeds_reported [(t1, l1); (t2, l2)] tot sb h =
    [ Some (speed_of l1 (t1 - time sb));
      Some (speed_of (l2 - l1) (t2 - t1)) ].
Proof.
  intros Hf Hload. cbn [speeds_reported]. unfold on_progress.
  cbn [lengthComputable loaded total sub_file time load].
  rewrite (speed_at_written _ _ h f Hf). cbn [data speed].
  destruct (write_progress_lookup (sub_file sb)
              (sub_file sb)
              {| status := Uploading;
                 data := Some
                   {| percentage :=
                        Math_round (num_div (num_mul (int l1) (int 100)) (int tot));
                      speed := Some (speed_of (l1 - load sb) (t1 - time sb));
                      speedHuman :=
                        Some (humanizeBytes (speed_of (l1 - load sb) (t1 - time sb))
                                +:+ "/s") |} |} h f Hf) as (f1 & Hf1 & _).
  rewrite (speed_at_written _ _ _ f1 Hf1). cbn [data speed].
  rewrite Hload, Z.sub_0_r.
  replace (time sb + (t1 - time sb)) with t1 by lia.
  reflexivity.
Qed.

(** The property on 500 bytes after 250 ms and 2000 bytes after 1000 ms:
    2000 bytes a second, twice. *)
Lemma first_two_ticks_report_interval_rate_witness :
  speeds_reported [(250, 500); (1000, 2000)] 3000
    (uploadFile (quiet 0%nat) 1%nat "/upload" None second_started)
    (heap second_started)
  = [Some (speed_of 500 250); Some (speed_of 1500 750)] /\
  speed_of 500 250 = int 2000 /\ speed_of 1500 750 = int 2000.
Proof.
  split; [| split; vm_compute; reflexivity].
  exact (first_two_ticks_report_interval_rate 250 1000 500 2000 3000
           (uploadFile (quiet 0%nat) 1%nat "/upload" None second_started)
           (heap second_started) (new_upload_file ids_ab 1 b_txt)
           eq_refl eq_refl).
Defined.

(** ** humanizeBytes away from the positive numbers *)

(** X14.  [humanizeBytes] of [NaN], of an infinity and of any negative
    number is "NaN undefined": the index is [NaN] (or [Infinity]) and so
    is the quotient.  Both zeros give "0 Byte". *)
Theorem humanizeBytes_of_no_positive_number (x : number) :
  (is_zero x = true -> humanizeBytes x = "0 Byte"%string) /\
  (is_zero x = false -> isFinite x && negb (is_negative x) = false ->
     humanizeBytes x = "NaN undefined"%string).
Proof.
  destruct x as [s | s | | s m e]; cbn [isFinite is_zero is_negative andb negb];
    (split; [try discriminate | intros Hz Hp; try discriminate]).
  - intros _. reflexivity.
  - destruct s; vm_compute; reflexivity.
  - vm_compute. reflexivity.
  - destruct s; [reflexivity | discriminate].
Qed.

(** The property at -5. *)
Lemma humanizeBytes_of_no_positive_number_witness :
  humanizeBytes (int (-5)) = "NaN undefined"%string.
Proof.
  exact (proj2 (humanizeBytes_of_no_positive_number (int (-5))) eq_refl eq_refl).
Defined.

(** ** What is emitted, and when *)

Lemma next_one_of (sb : Subscription) (v e : UploadOutput) :
  e ∈ next sb v -> e = v.
Proof.
  unfold next. destruct (closed sb); intros He.
  - apply elem_of_nil in He. destruct He.
  - apply list_elem_of_singleton in He. exact He.
Qed.

(** X16.  The events of the service by what caused them: a selection
    emits [addedToQueue] and [allAddedToQueue], the upload commands
    [start], the cancel commands [cancelled], a tick [uploading] and a
    completion [done].  [removed] is never emitted.  [allAddedToQueue]
    carries no entry; every other event carries one, but for the [start]
    of an [uploadFile] command that came without a file. *)
Theorem events_by_cause (x : Stimulus) (s : NgUploaderService) (e : UploadOutput) :
  e ∈ emitted (step x s) ->
  out_type e <> removed /\
  (out_type e = allAddedToQueue -> out_file e = None) /\
  (out_file e = None ->
     out_type e = allAddedToQueue \/
     (out_type e = start /\
      exists env url method, x = Command env (In_uploadFile None url method))) /\
  match x with
  | Browse _ _ => out_type e = addedToQueue \/ out_type e = allAddedToQueue
  | Command _ (In_uploadAll _ _) | Command _ (In_uploadFile _ _ _) => out_type e = start
  | Command _ (In_cancel _) | Command _ In_cancelAll => out_type e = cancelled
  | Xhr_progress _ _ _ => out_type e = uploading
  | Xhr_load _ => out_type e = done
  end.
Proof.
  intros He.
  assert (Hcar : forall t r, e = output t r -> t <> removed -> t <> allAddedToQueue ->
            out_type e <> removed /\
            (out_type e = allAddedToQueue -> out_file e = None) /\
            (out_file e = None ->
               out_type e = allAddedToQueue \/
               (out_type e = start /\
                exists env url method, x = Command env (In_uploadFile None url method)))).
  { intros t r -> H1 H2. simpl. split; [exact H1 |].
    split; [intros; congruence | discriminate]. }
  destruct x as [gen fl | env event | handle t ev | handle]; cbn [step] in He.
  - simpl in He. apply elem_of_app in He. destruct He as [He | He].
    + apply list_elem_of_fmap in He. destruct He as (r & He & _).
      destruct (Hcar addedToQueue r He ltac:(discriminate) ltac:(discriminate))
        as (H1 & H2 & H3).
      split; [exact H1 |]. split; [exact H2 |]. split; [exact H3 |].
      left. subst e. reflexivity.
    + apply list_elem_of_singleton in He. subst e. simpl.
      split; [discriminate |]. split; [reflexivity |].
      split; [left; reflexivity | right; reflexivity].
  - destruct event as [url method | file url method | key |]; cbn [on_input] in He.
    + rewrite start_all_unfold in He. cbn [emitted] in He.
      apply list_elem_of_fmap in He. destruct He as (r & He & _).
      destruct (Hcar start r He ltac:(discriminate) ltac:(discriminate))
        as (H1 & H2 & H3).
      split; [exact H1 |]. split; [exact H2 |]. split; [exact H3 |].
      subst e. reflexivity.
    + assert (He' : e = {| out_type := start; out_file := file |}).
      { unfold start_upload in He.
        destruct file as [f |]; [destruct (open_throws _) |]; cbn [emitted] in He;
          apply list_elem_of_singleton in He; exact He. }
      subst e. cbn [out_type out_file].
      split; [discriminate |]. split; [discriminate |].
      split; [| reflexivity].
      intros ->. right. split; [reflexivity |]. exists env, url, method. reflexivity.
    + assert (Hc : exists r, e = output cancelled r).
      { unfold cancel in He. destruct key as [[| c key'] |];
          try (apply elem_of_nil in He; destruct He).
        destruct (find_upload s (String c key')) as [[index u] |];
          [| apply elem_of_nil in He; destruct He].
        destruct (fileList s); simpl in He; apply list_elem_of_singleton in He;
          exists (up_file u); exact He. }
      destruct Hc as [r He'].
      destruct (Hcar cancelled r He' ltac:(discriminate) ltac:(discriminate))
        as (H1 & H2 & H3).
      split; [exact H1 |]. split; [exact H2 |]. split; [exact H3 |].
      subst e. reflexivity.
    + simpl in He. apply list_elem_of_fmap in He. destruct He as (u & He' & _).
      destruct (Hcar cancelled (up_file u) He' ltac:(discriminate) ltac:(discriminate))
        as (H1 & H2 & H3).
      split; [exact H1 |]. split; [exact H2 |]. split; [exact H3 |].
      subst e. reflexivity.
  - unfold deliver in He. destruct (subs s !! handle) as [sb |];
      [| apply elem_of_nil in He; destruct He].
    unfold on_progress in He. destruct (lengthComputable ev); simpl in He;
      [| apply elem_of_nil in He; destruct He].
    apply next_one_of in He.
    destruct (Hcar uploading (sub_file sb) He ltac:(discriminate) ltac:(discriminate))
      as (H1 & H2 & H3).
    split; [exact H1 |]. split; [exact H2 |]. split; [exact H3 |].
    subst e. reflexivity.
  - unfold deliver in He. destruct (subs s !! handle) as [sb |];
      [| apply elem_of_nil in He; destruct He].
    simpl in He. apply next_one_of in He.
    destruct (Hcar done (sub_file sb) He ltac:(discriminate) ltac:(discriminate))
      as (H1 & H2 & H3).
    split; [exact H1 |]. split; [exact H2 |]. split; [exact H3 |].
    subst e. reflexivity.
Qed.

(** The property on the event of an [uploadFile] command without file. *)
Lemma events_by_cause_witness :
  out_type {| out_type := start; out_file := None |} <> removed /\
  out_type {| out_type := start; out_file := None |} = start.
Proof.
  destruct (events_by_cause (Command quiet (In_uploadFile None "/upload" None))
              second_started {| out_type := start; out_file := None |})
    as (H1 & _ & _ & H2).
  - vm_compute. apply list_elem_of_here.
  - split; [exact H1 | exact H2].
Defined.

(** X17.  A tick whose total is not known is ignored altogether: nothing
    is emitted, no progress is written, and [time] and [load] keep their
    values, so that the next tick measures from the tick before. *)
Theorem tick_of_unknown_total_is_ignored (handle : nat) (t : Z) (e : ProgressEvent)
    (s : NgUploaderService) :
  lengthComputable e = false ->
  step (Xhr_progress handle t e) s = {| after := s; emitted := []; thrown := false |}.
Proof.
  intros Hc. cbn [step]. unfold deliver.
  destruct (subs s !! handle) as [sb |] eqn:E; [| reflexivity].
  unfold on_progress. rewrite Hc. rewrite (list_insert_id _ _ _ E).
  destruct s. reflexivity.
Qed.

(** The property on a tick without total for the request of b.txt. *)
Lemma tick_of_unknown_total_is_ignored_witness :
  after (step (Xhr_progress 0%nat 1000
                 {| lengthComputable := false; loaded := 1000; total := 0 |})
              second_started)
    = second_started.
Proof.
  exact (f_equal after
           (tick_of_unknown_total_is_ignored 0%nat 1000
              {| lengthComputable := false; loaded := 1000; total := 0 |}
              second_started eq_refl)).
Defined.

(** ** A new selection while jobs are tracked *)

(** X18.  [handleFiles] replaces the registry but keeps the job table
    and its subscriptions: a job of the previous selection is still
    found by its id, at the same place.  Its [cancel] emits [cancelled]
    for the old entry, which is not in the new registry, and removes from
    the new registry and from the new raw files whatever sits at the
    position of the job. *)
Theorem handleFiles_keeps_jobs (gen : nat -> string) (fl : list File)
    (env : nat -> Env) (key : string) (index : nat) (u : Upload)
    (s : NgUploaderService) :
  Forall (fun u' => is_Some (heap s !! up_file u')) (uploads s) ->
  key <> ""%string ->
  find_upload s key = Some (index, u) ->
  let s1 := after (step (Browse gen fl) s) in
  let o := step (Command env (In_cancel (Some key))) s1 in
  uploads s1 = uploads s /\
  subs s1 = subs s /\
  find_upload s1 key = Some (index, u) /\
  (up_file u ∉ files s1) /\
  emitted o = [output cancelled (up_file u)] /\
  files (after o) = delete index (files s1) /\
  fileList (after o) = FileArray (delete index fl).
Proof.
  intros Hwf Hkey Hfind. cbn [step].
  assert (Hfind1 : find_upload (after (handleFiles gen fl s)) key = Some (index, u)).
  { rewrite <- Hfind. unfold find_upload. cbn [handleFiles after heap uploads].
    induction (uploads s) as [| u' us IH]; [reflexivity |].
    apply Forall_cons in Hwf. destruct Hwf as [[f Hf] Hwf].
    cbn [list_find].
    assert (Hiff : has_id (heap s ++ imap (new_upload_file gen) fl) key u'
                   <-> has_id (heap s) key u').
    { unfold has_id. rewrite (lookup_app_l_Some _ _ _ _ Hf), Hf. reflexivity. }
    destruct (decide (has_id (heap s) key u')) as [Hy | Hn].
    - rewrite decide_True by (apply Hiff; exact Hy). reflexivity.
    - rewrite decide_False by (rewrite Hiff; exact Hn). rewrite (IH Hwf). reflexivity. }
  split; [reflexivity |]. split; [reflexivity |]. split; [exact Hfind1 |].
  split.
  { cbn [handleFiles after files]. intros Hin. apply elem_of_seq in Hin.
    unfold find_upload in Hfind. apply list_find_Some in Hfind.
    destruct Hfind as (Hu & _ & _).
    rewrite Forall_lookup in Hwf. destruct (Hwf index u Hu) as [f Hf].
    apply lookup_lt_Some in Hf. lia. }
  cbn [on_input].
  destruct (cancel_removes_job_index key index u (after (handleFiles gen fl s))
              Hkey Hfind1 ltac:(discriminate)) as (He & _ & Hfs & Hl & _).
  split; [exact He |]. split; [exact Hfs | exact Hl].
Qed.

(** The property on the job of b.txt when a.txt alone is selected anew:
    the cancel of b.txt removes the new entry. *)
Lemma handleFiles_keeps_jobs_witness :
  let s1 := after (step (Browse ids_ab [a_txt]) second_started) in
  let o := step (Command quiet (In_cancel (Some "b"%string))) s1 in
  emitted o = [output cancelled 1%nat] /\ files (after o) = [].
Proof.
  destruct (handleFiles_keeps_jobs ids_ab [a_txt] quiet "b" 0%nat
              {| up_file := 1%nat; sub := 0%nat |} second_started)
    as (_ & _ & _ & _ & He & Hf & _).
  - repeat constructor. exists (new_upload_file ids_ab 1 b_txt). reflexivity.
  - discriminate.
  - reflexivity.
  - split; [exact He | exact Hf].
Defined.

(** ** After a cancellation *)

(** X19.  Once a job has been cancelled, by [cancel] or by [cancelAll],
    no notification of its request reaches the output any more: whatever
    happens afterwards, its ticks and its completion emit nothing. *)
Theorem cancelled_job_is_silent (s : NgUploaderService) (xs : list Stimulus)
    (x : Stimulus) (u : Upload) (sb : Subscription) :
  subs s !! sub u = Some sb ->
  concerns (sub u) x ->
  (forall key index, key <> ""%string -> find_upload s key = Some (index, u) ->
     emitted (step x (run xs (after (cancel (Some key) s))).1) = []) /\
  (u ∈ uploads s ->
     emitted (step x (run xs (after (cancelAll s))).1) = []).
Proof.
  intros Hsb Hx. split.
  - intros key index Hkey Hfind.
    apply (closed_is_silent x _ (sub u)); [| exact Hx]. apply run_keeps_closed.
    exists (close sb). split; [| reflexivity].
    unfold cancel. rewrite Hfind. destruct key; [congruence |].
    destruct (fileList s); cbn [after subs]; unfold unsubscribe;
      rewrite list_lookup_alter_eq, Hsb; reflexivity.
  - intros Hin.
    apply (closed_is_silent x _ (sub u)); [| exact Hx]. apply run_keeps_closed.
    exists (close sb). split; [| reflexivity].
    cbn [cancelAll after subs]. rewrite unsubscribe_all_lookup, Hsb.
    rewrite decide_True; [reflexivity |].
    apply list_elem_of_fmap. exists u. split; [reflexivity | exact Hin].
Qed.

(** The property on the job of b.txt: cancelled, then ticked. *)
Lemma cancelled_job_is_silent_witness :
  emitted (step (Xhr_progress 0%nat 1000 (tick_of 1000))
             (run [] (after (cancel (Some "b"%string) second_started))).1) = [].
Proof.
  exact (proj1 (cancelled_job_is_silent second_started []
                  (Xhr_progress 0%nat 1000 (tick_of 1000))
                  {| up_file := 1%nat; sub := 0%nat |}
                  (uploadFile (quiet 0%nat) 1%nat "/upload" None
                     (after (step (Browse ids_ab [a_txt; b_txt]) new_service)))
                  eq_refl
                  (or_intror (ex_intro _ 1000 (ex_intro _ (tick_of 1000) eq_refl))))
               "b"%string 0%nat ltac:(discriminate) eq_refl).
Defined.
